(** * ModularSensors: the variable array orchestrator and the logger clock

    A shallow embedding of [src/VariableArray.h] and of the clock constants
    of [src/LoggerBase.h].

    The classes Sensor and Variable (SensorBase.h, VariableBase.h) are
    external collaborators: only their interface is used here, and it is
    taken as a parameter ([Platform], with [Var] for the class Variable).
    Calls into the hardware thread an abstract [World]; every such call is
    recorded in a trace, so that how often a sensor was touched can be
    stated. *)

From Stdlib Require Import ZArith List String Bool Arith Lia.
Import ListNotations.

Local Open Scope Z_scope.

(* ===================================================================== *)
(** * The sensor and variable capabilities *)
(* ===================================================================== *)

(** The four sensor-level actions of SensorBase.h, each returning [bool]. *)
Inductive SensorOp : Type := OpSetup | OpSleep | OpWake | OpUpdate.

(** [Sensor] and [Var] are object references ([Sensor*], [Variable*]):
    two variables may point to one sensor object, and two sensor objects
    may carry the same name and location. *)
Class Platform : Type := {
  World : Type;
  Sensor : Type;
  Var : Type;
  parentSensor : Var -> Sensor;
  getSensorName : Sensor -> string;
  getSensorLocation : Sensor -> string;
  Sensor_call : SensorOp -> Sensor -> World -> bool * World;
  Variable_setup : Var -> World -> bool * World;
  getValueString : Var -> World -> string
}.

Section Model.

Context {P : Platform}.

(** What the outside sees of a run: every hardware call with its result,
    and the "Set up of ... failed!" report printed for a handle. *)
Inductive Event : Type :=
| EvSensor (op : SensorOp) (s : Sensor) (ok : bool)
| EvAttach (v : Var) (ok : bool)
| EvSetupFailed (v : Var).

Record State : Type := mkState { world : World; trace : list Event }.

(** A run ends with a value and a state, reads past the end of the
    variable list (undefined behaviour in C++), or runs out of fuel. *)
Inductive Outcome (A : Type) : Type :=
| Ok (a : A) (st : State)
| Undefined
| OutOfFuel.

Arguments Ok {A} a st.
Arguments Undefined {A}.
Arguments OutOfFuel {A}.

Definition M (A : Type) : Type := State -> Outcome A.

Definition ret {A : Type} (a : A) : M A := fun st => Ok a st.

Definition bind {A B : Type} (m : M A) (k : A -> M B) : M B :=
  fun st =>
    match m st with
    | Ok a st' => k a st'
    | Undefined => Undefined
    | OutOfFuel => OutOfFuel
    end.

Notation "x <- m ;; k" := (bind m (fun x => k))
  (at level 61, m at next level, right associativity).
Notation "m ;;; k" := (bind m (fun _ => k))
  (at level 61, right associativity).

Definition lift {A : Type} (o : option A) : M A :=
  fun st => match o with Some a => Ok a st | None => Undefined end.

Definition out_of_fuel {A : Type} : M A := fun _ => OutOfFuel.

Definition emit (e : Event) : M unit :=
  fun st => Ok tt (mkState (world st) (trace st ++ [e])).

Definition hardware {A : Type} (f : World -> A * World) : M A :=
  fun st => let (a, w) := f (world st) in Ok a (mkState w (trace st)).

(** [s->setup()], [s->sleep()], [s->wake()], [s->update()] *)
Definition sensor_do (op : SensorOp) (s : Sensor) : M bool :=
  ok <- hardware (Sensor_call op s) ;;
  emit (EvSensor op s ok) ;;;
  ret ok.

(** [v->setup()], the attach step of a variable *)
Definition variable_attach (v : Var) : M bool :=
  ok <- hardware (Variable_setup v) ;;
  emit (EvAttach v ok) ;;;
  ret ok.

(* ===================================================================== *)
(** * class VariableArray *)
(* ===================================================================== *)

(** [uint8_t _variableCount; Variable **_variableList;] *)
Record VariableArray : Type := mkArray {
  _variableCount : Z;
  _variableList : list Var
}.

(** Conversion of an [int] to [uint8_t]. *)
Definition to_uint8 (z : Z) : Z := z mod 256.

(** [init(int variableCount, Variable *variableList[])] *)
Definition init (variableCount : Z) (variableList : list Var)
  : VariableArray :=
  {| _variableCount := to_uint8 variableCount;
     _variableList := variableList |}.

(** [int getVariableCount(void)] *)
Definition getVariableCount (arr : VariableArray) : Z := _variableCount arr.

(** Loop bounds.  Every loop counter runs from 0 to [_variableCount], which
    is at most 255, so neither the [int] nor the [uint8_t] counters of the
    source wrap; counters are natural numbers. *)
Definition count (arr : VariableArray) : nat := Z.to_nat (_variableCount arr).

(** [_variableList[i]] *)
Definition variable_at (arr : VariableArray) (i : nat) : option Var :=
  nth_error (_variableList arr) i.

(** The body of [isLastVarFromSensor]'s loop: [n] iterations are left and
    the counter is [j]; a match ends the loop with [unique = false]. *)
Fixpoint later_match (arr : VariableArray) (sensName sensLoc : string)
         (n j : nat) : option bool :=
  match n with
  | O => Some true
  | S n' =>
      match variable_at arr j with
      | None => None
      | Some v =>
          if (sensName =? getSensorName (parentSensor v))%string
             && (sensLoc =? getSensorLocation (parentSensor v))%string
          then Some false
          else later_match arr sensName sensLoc n' (S j)
      end
  end.

(** [bool isLastVarFromSensor(int arrayIndex)] *)
Definition isLastVarFromSensor (arr : VariableArray) (arrayIndex : nat)
  : option bool :=
  match variable_at arr arrayIndex with
  | None => None
  | Some v =>
      let sensName := getSensorName (parentSensor v) in
      let sensLoc := getSensorLocation (parentSensor v) in
      later_match arr sensName sensLoc
                  (count arr - (arrayIndex + 1)) (arrayIndex + 1)
  end.

(** The loop of [getSensorCount]. *)
Fixpoint count_sensors (arr : VariableArray) (n i : nat) (numSensors : Z)
  : option Z :=
  match n with
  | O => Some numSensors
  | S n' =>
      match isLastVarFromSensor arr i with
      | None => None
      | Some true => count_sensors arr n' (S i) (numSensors + 1)
      | Some false => count_sensors arr n' (S i) numSensors
      end
  end.

(** [int getSensorCount(void)] *)
Definition getSensorCount (arr : VariableArray) : option Z :=
  let numSensors := 1 in
  count_sensors arr (count arr) 0 numSensors.

(** [for (i = i0; i < i0 + n; i++) acc = body i acc;] *)
Fixpoint for_loop {A : Type} (n i : nat) (body : nat -> A -> M A) (acc : A)
  : M A :=
  match n with
  | O => ret acc
  | S n' => acc' <- body i acc ;; for_loop n' (S i) body acc'
  end.

(** The [while (setupTries < 5)] loop of [setupSensors], for handle [i].
    It yields the new values of [sensorSuccess] and [setupTries]. *)
Fixpoint setup_while (arr : VariableArray) (i : nat) (fuel : nat)
         (sensorSuccess : bool) (setupTries : nat) : M (bool * nat) :=
  if (setupTries <? 5)%nat then
    match fuel with
    | O => out_of_fuel
    | S fuel' =>
        v <- lift (variable_at arr i) ;;
        ok <- sensor_do OpSetup (parentSensor v) ;;
        if ok then ret (ok, setupTries)
        else setup_while arr i fuel' ok (setupTries + 1)%nat
    end
  else ret (sensorSuccess, setupTries).

(** The state of the first loop of [setupSensors]:
    [success], [sensorSuccess], [setupTries]. *)
Definition setup_pass_body (arr : VariableArray) (i : nat)
           (acc : bool * bool * nat) : M (bool * bool * nat) :=
  let '(success, sensorSuccess, setupTries) := acc in
  r <- setup_while arr i 5 sensorSuccess setupTries ;;
  let '(sensorSuccess, setupTries) := r in
  (if negb sensorSuccess
   then v <- lift (variable_at arr i) ;; emit (EvSetupFailed v)
   else ret tt) ;;;
  ret (success && sensorSuccess, sensorSuccess, setupTries).

Definition attach_pass_body (arr : VariableArray) (i : nat) (success : bool)
  : M bool :=
  v <- lift (variable_at arr i) ;;
  ok <- variable_attach v ;;
  ret (success && ok).

(** [bool setupSensors(void)].  Of the text printed on [Serial], only the
    report of a failed handle is kept, as [EvSetupFailed]. *)
Definition setupSensors (arr : VariableArray) : M bool :=
  let success := true in
  let sensorSuccess := false in
  let setupTries := 0%nat in
  r <- for_loop (count arr) 0 (setup_pass_body arr)
                (success, sensorSuccess, setupTries) ;;
  let '(success, _, _) := r in
  success <- for_loop (count arr) 0 (attach_pass_body arr) success ;;
  ret success.

(** The common loop body of [sensorsSleep] and [sensorsWake]:
    [if (isLastVarFromSensor(i)) success &= sensor->op();] *)
Definition canonical_and_body (arr : VariableArray) (op : SensorOp) (i : nat)
           (success : bool) : M bool :=
  last <- lift (isLastVarFromSensor arr i) ;;
  if last : bool then
    v <- lift (variable_at arr i) ;;
    ok <- sensor_do op (parentSensor v) ;;
    ret (success && ok)
  else ret success.

(** [bool sensorsSleep(void)] *)
Definition sensorsSleep (arr : VariableArray) : M bool :=
  let success := true in
  for_loop (count arr) 0 (canonical_and_body arr OpSleep) success.

(** [bool sensorsWake(void)] *)
Definition sensorsWake (arr : VariableArray) : M bool :=
  let success := true in
  for_loop (count arr) 0 (canonical_and_body arr OpWake) success.

(** The loop body of [updateAllSensors]:
    [if (isLastVarFromSensor(i)) update_success = sensor->update();] *)
Definition update_body (arr : VariableArray) (i : nat) (update_success : bool)
  : M bool :=
  last <- lift (isLastVarFromSensor arr i) ;;
  if last : bool then
    v <- lift (variable_at arr i) ;;
    sensor_do OpUpdate (parentSensor v)
  else ret update_success.

(** [bool updateAllSensors(void)] *)
Definition updateAllSensors (arr : VariableArray) : M bool :=
  let success := true in
  let update_success := true in
  update_success <- for_loop (count arr) 0 (update_body arr) update_success ;;
  ret (success && update_success).

(** The loop of [generateSensorDataCSV]; values are read in the world [w]. *)
Fixpoint csv_loop (arr : VariableArray) (w : World) (n i : nat)
         (csvString : string) : option string :=
  match n with
  | O => Some csvString
  | S n' =>
      match variable_at arr i with
      | None => None
      | Some v =>
          let csvString := (csvString ++ getValueString v w)%string in
          let csvString :=
            if negb (Nat.eqb (i + 1) (count arr))
            then (csvString ++ ", ")%string
            else csvString in
          csv_loop arr w n' (S i) csvString
      end
  end.

(** [String generateSensorDataCSV(void)] *)
Definition generateSensorDataCSV (arr : VariableArray) (w : World)
  : option string :=
  csv_loop arr w (count arr) 0 EmptyString.

(* ===================================================================== *)
(** * Vocabulary for the statements *)
(* ===================================================================== *)

(** The identity of a sensor for deduplication: (name, location). *)
Definition sensor_key (v : Var) : string * string :=
  (getSensorName (parentSensor v), getSensorLocation (parentSensor v)).

Definition same_sensor (v u : Var) : bool :=
  (getSensorName (parentSensor v) =? getSensorName (parentSensor u))%string
  && (getSensorLocation (parentSensor v)
      =? getSensorLocation (parentSensor u))%string.

Definition key_eq_dec (x y : string * string) : {x = y} + {x <> y}.
Proof. decide equality; apply string_dec. Defined.

(** The distinct (name, location) pairs of a list of handles. *)
Definition distinct_sensors (vl : list Var) : list (string * string) :=
  nodup key_eq_dec (map sensor_key vl).

(** An array as [init] leaves it when it is given the length of its list,
    and that length fits the 8-bit count. *)
Definition well_formed (arr : VariableArray) : Prop :=
  _variableCount arr = Z.of_nat (List.length (_variableList arr))
  /\ (List.length (_variableList arr) < 256)%nat.

(** The canonical indices: those where [isLastVarFromSensor] is true. *)
Definition is_canonical (arr : VariableArray) (i : nat) : bool :=
  match isLastVarFromSensor arr i with
  | Some true => true
  | _ => false
  end.

Definition canonical_indices (arr : VariableArray) : list nat :=
  filter (is_canonical arr) (seq 0 (count arr)).

Definition handles_at (arr : VariableArray) (l : list nat) : list Var :=
  flat_map (fun i => match variable_at arr i with
                     | Some v => [v]
                     | None => []
                     end) l.

(** The (name, location) pair the handle at index [i] refers to. *)
Definition key_at (arr : VariableArray) (i : nat)
  : option (string * string) :=
  option_map sensor_key (variable_at arr i).

Definition canonical_handles (arr : VariableArray) : list Var :=
  handles_at arr (canonical_indices arr).

(** The handles of a list that no later handle shares a sensor with. *)
Fixpoint canonical (vl : list Var) : list Var :=
  match vl with
  | [] => []
  | v :: tl =>
      if existsb (same_sensor v) tl then canonical tl else v :: canonical tl
  end.

Definition ev_ok (e : Event) : bool :=
  match e with
  | EvSensor _ _ ok => ok
  | EvAttach _ ok => ok
  | EvSetupFailed _ => false
  end.

(** One call of [op] on each sensor of [ss], in order: the events and the
    world it ends in. *)
Fixpoint replay (op : SensorOp) (ss : list Sensor) (w : World)
  : list Event * World :=
  match ss with
  | [] => ([], w)
  | s :: tl =>
      let (ok, w1) := Sensor_call op s w in
      let (evs, w2) := replay op tl w1 in
      (EvSensor op s ok :: evs, w2)
  end.

(** At most [k] setup calls on [s], stopping at the first success: the
    results and the world they end in. *)
Fixpoint attempts (k : nat) (s : Sensor) (w : World) : list bool * World :=
  match k with
  | O => ([], w)
  | S k' =>
      let (ok, w1) := Sensor_call OpSetup s w in
      if ok then ([true], w1)
      else let (rs, w2) := attempts k' s w1 in (false :: rs, w2)
  end.

(** The attach step of each handle of [vs], in order: the events and the
    world it ends in. *)
Fixpoint attach_all (vs : list Var) (w : World) : list Event * World :=
  match vs with
  | [] => ([], w)
  | v :: tl =>
      let (ok, w1) := Variable_setup v w in
      let (evs, w2) := attach_all tl w1 in
      (EvAttach v ok :: evs, w2)
  end.

(** Projections of a trace. *)
Definition setup_calls (evs : list Event) : list (Sensor * bool) :=
  flat_map (fun e => match e with
                     | EvSensor OpSetup s ok => [(s, ok)]
                     | _ => []
                     end) evs.

Definition attach_calls (evs : list Event) : list (Var * bool) :=
  flat_map (fun e => match e with
                     | EvAttach v ok => [(v, ok)]
                     | _ => []
                     end) evs.

Definition failure_reports (evs : list Event) : list Var :=
  flat_map (fun e => match e with
                     | EvSetupFailed v => [v]
                     | _ => []
                     end) evs.

(** Two arrays with the same count and the same handles below it. *)
Definition agree (arr arr' : VariableArray) : Prop :=
  count arr = count arr'
  /\ forall i : nat, (i < count arr)%nat ->
                     variable_at arr i = variable_at arr' i.

(** No handle was reported as failed. *)
Definition no_report (evs : list Event) : bool :=
  match failure_reports evs with
  | [] => true
  | _ :: _ => false
  end.

End Model.

Arguments Ok {P A} a st.
Arguments Undefined {P A}.
Arguments OutOfFuel {P A}.

(* ===================================================================== *)
(** * A scripted platform, for concrete runs *)
(* ===================================================================== *)

Module Bench.

(** A sensor object: its address, name and location, and the results its
    successive calls return (once the script is used up, [true]). *)
Record sensor : Type := mkSensor {
  s_addr : nat;
  s_name : string;
  s_loc : string;
  s_script : list bool
}.

Record variable : Type := mkVariable {
  v_parent : sensor;
  v_value : string;
  v_attach : bool
}.

(** The world remembers the addresses of the sensors called so far. *)
Definition history : Type := list nat.

Definition call (op : SensorOp) (s : sensor) (w : history)
  : bool * history :=
  (nth (count_occ Nat.eq_dec w (s_addr s)) (s_script s) true, s_addr s :: w).

#[export] Instance platform : Platform := {|
  World := history;
  Sensor := sensor;
  Var := variable;
  parentSensor := v_parent;
  getSensorName := s_name;
  getSensorLocation := s_loc;
  Sensor_call := call;
  Variable_setup := fun v w => (v_attach v, w);
  getValueString := fun v _ => v_value v
|}.

Definition start : State := mkState (P := platform) [] [].

(** Two variables of one sensor and a third of another. *)
Definition probe : sensor := mkSensor 1 "Probe" "D7" [].
Definition board : sensor := mkSensor 2 "Board" "A0" [].
Definition v1 : variable := mkVariable probe "v1" true.
Definition v2 : variable := mkVariable probe "v2" true.
Definition v3 : variable := mkVariable board "v3" true.
Definition three : VariableArray := init 3 [v1; v2; v3].

(** A sensor that never answers, followed by a healthy one. *)
Definition dead : sensor :=
  mkSensor 3 "Dead" "D5" [false; false; false; false; false; false; false].
Definition vdead : variable := mkVariable dead "-9999" true.
Definition dead_then_board : VariableArray := init 2 [vdead; v3].

(** A sensor that fails once, and one that fails four times, before they
    answer. *)
Definition slow1 : sensor := mkSensor 4 "Slow" "D8" [false; true].
Definition slow4 : sensor :=
  mkSensor 5 "Slower" "D9" [false; false; false; false; true].
Definition vslow1 : variable := mkVariable slow1 "1.0" true.
Definition vslow4 : variable := mkVariable slow4 "4.0" true.
Definition only_slow1 : VariableArray := init 1 [vslow1].
Definition only_slow4 : VariableArray := init 1 [vslow4].
Definition slow1_then_slow4 : VariableArray := init 2 [vslow1; vslow4].

(** A sensor whose first call fails, followed by a healthy one. *)
Definition flaky : sensor := mkSensor 6 "Flaky" "D10" [false].
Definition vflaky : variable := mkVariable flaky "0.5" true.
Definition flaky_then_board : VariableArray := init 2 [vflaky; v3].

(** 258 handles: [v1], [v2], and 256 times [v3]. *)
Definition crowd : list variable := [v1; v2] ++ repeat v3 256.

End Bench.

(* ===================================================================== *)
(** * LoggerBase.h: the clock *)
(* ===================================================================== *)

Module Logger.

(** [#define EPOCH_TIME_OFF 946684800] *)
Definition EPOCH_TIME_OFF : Z := 946684800.

(** The Gregorian calendar, to count the days from 1970 to 2000. *)
Definition is_leap_year (y : Z) : bool :=
  ((y mod 4 =? 0) && negb (y mod 100 =? 0)) || (y mod 400 =? 0).

Definition days_in_year (y : Z) : Z := if is_leap_year y then 366 else 365.

(** Days from January 1st of year [y] to January 1st of year [y + n]. *)
Fixpoint days_of_years (y : Z) (n : nat) : Z :=
  match n with
  | O => 0
  | S n' => days_in_year y + days_of_years (y + 1) n'
  end.

Definition seconds_per_day : Z := 86400.

(** [uint32_t] *)
Definition to_uint32 (z : Z) : Z := z mod 2 ^ 32.

(** Modelled from the spec: the body of [getNowEpoch], which lives in
    LoggerBase.cpp.  The clock chip counts seconds from 2000-01-01; the
    year-2000 offset and the two configured offsets ([_timeZone] and
    [_offset], both [int8_t] hours) are applied to it. *)
Definition getNowEpoch (rtcSeconds timeZone offset : Z) : Z :=
  to_uint32 (rtcSeconds + EPOCH_TIME_OFF + 3600 * timeZone + 3600 * offset).

(** Modelled from the spec: the test shared by [checkInterval] and
    [checkMarkedInterval] (LoggerBase.cpp): the tested time lies on a
    multiple of the interval, taken in seconds, or the current time lies
    in the first 15 minutes after logging started.  The constructor takes
    the interval as a [uint8_t] of minutes, so its length in seconds fits
    the [uint16_t] field [_loggingIntervalSeconds]. *)
Definition interval_test (tested now loggingStart intervalMinutes : Z)
  : bool :=
  (tested mod (intervalMinutes * 60) =? 0)
  || ((loggingStart <=? now) && (now - loggingStart <? 15 * 60)).

(** Modelled from the spec: [bool checkInterval(void)], on the current
    time. *)
Definition checkInterval (rtcSeconds timeZone offset : Z)
           (loggingStart intervalMinutes : Z) : bool :=
  let now := getNowEpoch rtcSeconds timeZone offset in
  interval_test now now loggingStart intervalMinutes.

(** Modelled from the spec: [bool checkMarkedInterval(void)], on
    [markedEpochTime]. *)
Definition checkMarkedInterval (markedEpochTime : Z)
           (rtcSeconds timeZone offset : Z)
           (loggingStart intervalMinutes : Z) : bool :=
  let now := getNowEpoch rtcSeconds timeZone offset in
  interval_test markedEpochTime now loggingStart intervalMinutes.

(** Modelled from the spec: [markTime], which samples the corrected time
    into [markedEpochTime]. *)
Definition markTime (rtcSeconds timeZone offset : Z) : Z :=
  getNowEpoch rtcSeconds timeZone offset.

End Logger.

(* ===================================================================== *)
(** * printSensorData, and more vocabulary *)
(* ===================================================================== *)

(** What [printSensorData] reads besides the sensor capability:
    [Sensor::printStatus(s->getStatus())], [v->getVarName()],
    [v->getVarUnit()], and what [stream->println()] writes. *)
Class PrintPlatform (P : Platform) : Type := {
  getStatusText : Sensor -> World -> string;
  getVarName : Var -> string;
  getVarUnit : Var -> string;
  println : string
}.

Section Printing.

Context {P : Platform} {PP : PrintPlatform P}.

(** The ten [stream->print] calls and the [println] of one iteration. *)
Definition print_line (v : Var) (w : World) (stream : string) : string :=
  let stream := (stream ++ getSensorName (parentSensor v))%string in
  let stream := (stream ++ " attached at ")%string in
  let stream := (stream ++ getSensorLocation (parentSensor v))%string in
  let stream := (stream ++ " has status ")%string in
  let stream := (stream ++ getStatusText (parentSensor v) w)%string in
  let stream := (stream ++ " and reports ")%string in
  let stream := (stream ++ getVarName v)%string in
  let stream := (stream ++ " is ")%string in
  let stream := (stream ++ getValueString v w)%string in
  let stream := (stream ++ " ")%string in
  let stream := (stream ++ getVarUnit v)%string in
  (stream ++ println)%string.

(** The loop of [printSensorData]; [stream] is what was written so far. *)
Fixpoint print_loop (arr : VariableArray) (w : World) (n i : nat)
         (stream : string) : option string :=
  match n with
  | O => Some stream
  | S n' =>
      match variable_at arr i with
      | None => None
      | Some v => print_loop arr w n' (S i) (print_line v w stream)
      end
  end.

(** [void printSensorData(Stream *stream)] *)
Definition printSensorData (arr : VariableArray) (w : World)
           (stream : string) : option string :=
  print_loop arr w (count arr) 0 stream.

(** The text of one handle, as a whole. *)
Definition sensor_data_line (w : World) (v : Var) : string :=
  (getSensorName (parentSensor v) ++ " attached at "
   ++ getSensorLocation (parentSensor v) ++ " has status "
   ++ getStatusText (parentSensor v) w ++ " and reports "
   ++ getVarName v ++ " is " ++ getValueString v w ++ " "
   ++ getVarUnit v ++ println)%string.

End Printing.

Section MoreVocabulary.

Context {P : Platform}.

(** The setup calls of a trace that failed, and those that succeeded. *)
Definition failed_setups (evs : list Event) : list (Sensor * bool) :=
  filter (fun c => negb (snd c)) (setup_calls evs).

Definition successful_setups (evs : list Event) : list (Sensor * bool) :=
  filter snd (setup_calls evs).

(** The (name, location) pairs of the sensors called in a trace. *)
Definition called_keys (evs : list Event) : list (string * string) :=
  flat_map (fun e => match e with
                     | EvSensor _ s _ =>
                         [(getSensorName s, getSensorLocation s)]
                     | _ => []
                     end) evs.

(** An event is a call of [op] on some sensor. *)
Definition is_call_of (op : SensorOp) (e : Event) : Prop :=
  exists (s : Sensor) (ok : bool), e = EvSensor op s ok.

(** An event that [setupSensors] may cause. *)
Definition is_setup_event (e : Event) : Prop :=
  match e with
  | EvSensor OpSetup _ _ => True
  | EvSensor _ _ _ => False
  | EvAttach _ _ => True
  | EvSetupFailed _ => True
  end.

(** How the setup pass ends for a handle: with a setup call that
    succeeded, or with the report of its failure. *)
Definition is_setup_outcome (e : Event) : bool :=
  match e with
  | EvSensor OpSetup _ true => true
  | EvSetupFailed _ => true
  | _ => false
  end.

Definition setup_outcomes (evs : list Event) : list Event :=
  filter is_setup_outcome evs.

(** The outcome [e] is that of the handle [v]: a successful setup call on
    the parent sensor of [v], or the report that [v] failed. *)
Definition outcome_of (e : Event) (v : Var) : Prop :=
  e = EvSensor OpSetup (parentSensor v) true \/ e = EvSetupFailed v.

(** The array cut to the handles below its count. *)
Definition truncate (arr : VariableArray) : VariableArray :=
  mkArray (Z.of_nat (count arr)) (firstn (count arr) (_variableList arr)).

End MoreVocabulary.

Module BenchPrint.

(** A sensor that was called at least once is ready. *)
Definition status (s : Bench.sensor) (w : Bench.history) : string :=
  if existsb (Nat.eqb (Bench.s_addr s)) w then "ready" else "unknown".

(** Carriage return and line feed. *)
Definition crlf : string :=
  String (Ascii.ascii_of_nat 13) (String (Ascii.ascii_of_nat 10) EmptyString).

#[export] Instance printing : PrintPlatform Bench.platform :=
  Build_PrintPlatform Bench.platform
    status
    (fun v : Bench.variable => ("var_" ++ Bench.v_value v)%string)
    (fun _ : Bench.variable => "unit"%string)
    crlf.

(** One variable of the board; 258 declared variables; a count of -1. *)
Definition only_board : VariableArray :=
  init (P := Bench.platform) 1 [Bench.v3].
Definition wrapped : VariableArray :=
  init (P := Bench.platform) 258 Bench.crowd.
Definition minus_one : VariableArray :=
  init (P := Bench.platform) (-1) [Bench.v1; Bench.v2; Bench.v3].

End BenchPrint.

(* ===================================================================== *)
(** * Properties of the variable array *)
(* ===================================================================== *)

Section Proofs.

Context {P : Platform}.

Lemma count_well_formed (arr : VariableArray) :
  well_formed arr -> count arr = List.length (_variableList arr).
Proof.
  intros [Hc _]. unfold count. rewrite Hc. apply Nat2Z.id.
Qed.

Lemma same_sensor_key (v u : Var) :
  same_sensor v u = true <-> sensor_key u = sensor_key v.
Proof.
  unfold same_sensor, sensor_key.
  rewrite andb_true_iff, !String.eqb_eq.
  split.
  - intros [-> ->]. reflexivity.
  - intros H. injection H as -> ->. split; reflexivity.
Qed.

Lemma variable_at_middle (arr : VariableArray) (pre suf : list Var) (v : Var) :
  _variableList arr = pre ++ v :: suf ->
  variable_at arr (List.length pre) = Some v.
Proof.
  intros H. unfold variable_at. rewrite H.
  rewrite nth_error_app2 by lia.
  rewrite Nat.sub_diag. reflexivity.
Qed.

Lemma snoc_middle (pre suf : list Var) (v : Var) :
  pre ++ v :: suf = (pre ++ [v]) ++ suf.
Proof. rewrite <- app_assoc. reflexivity. Qed.

Lemma length_snoc (pre : list Var) (v : Var) :
  List.length (pre ++ [v]) = S (List.length pre).
Proof. rewrite length_app. simpl. lia. Qed.

(** The inner loop, started behind [pre], scans exactly [suf]. *)
Lemma later_match_scan (arr : VariableArray) (sensName sensLoc : string) :
  forall (suf pre : list Var),
    _variableList arr = pre ++ suf ->
    later_match arr sensName sensLoc (List.length suf) (List.length pre)
    = Some (negb (existsb
                    (fun u =>
                       (sensName =? getSensorName (parentSensor u))%string
                       && (sensLoc =? getSensorLocation (parentSensor u))%string)
                    suf)).
Proof.
  induction suf as [|u suf IH]; intros pre Hl; simpl.
  - reflexivity.
  - rewrite (variable_at_middle arr pre suf u Hl).
    destruct ((sensName =? getSensorName (parentSensor u))%string
              && (sensLoc =? getSensorLocation (parentSensor u))%string).
    + reflexivity.
    + simpl. rewrite <- (length_snoc pre u).
      apply IH. rewrite Hl. apply snoc_middle.
Qed.

Lemma isLastVarFromSensor_middle (arr : VariableArray)
      (pre suf : list Var) (v : Var) :
  _variableList arr = pre ++ v :: suf ->
  count arr = List.length (pre ++ v :: suf) ->
  isLastVarFromSensor arr (List.length pre)
  = Some (negb (existsb (same_sensor v) suf)).
Proof.
  intros Hl Hc. unfold isLastVarFromSensor.
  rewrite (variable_at_middle arr pre suf v Hl). cbv zeta.
  rewrite Hc, length_app. simpl List.length.
  replace (List.length pre + S (List.length suf) - (List.length pre + 1))%nat
    with (List.length suf) by lia.
  replace (List.length pre + 1)%nat with (List.length (pre ++ [v]))
    by (rewrite length_snoc; lia).
  rewrite (later_match_scan arr _ _ suf (pre ++ [v]))
    by (rewrite Hl; apply snoc_middle).
  reflexivity.
Qed.

Lemma well_formed_split (arr : VariableArray) (i : nat) :
  well_formed arr -> (i < count arr)%nat ->
  exists pre v suf,
    _variableList arr = pre ++ v :: suf /\ List.length pre = i.
Proof.
  intros Hwf Hi. rewrite (count_well_formed arr Hwf) in Hi.
  destruct (nth_error (_variableList arr) i) as [v|] eqn:E.
  - destruct (nth_error_split _ _ E) as (pre & suf & Hl & Hlen).
    exists pre, v, suf. split; assumption.
  - apply nth_error_None in E. lia.
Qed.

(** C1. For every well-formed array and every index [i] in range,
    [isLastVarFromSensor i] returns, and it returns true if and only if no
    later index [j > i] refers to a sensor with the same (name, location)
    pair; the last index of an array (so the sole index of a
    single-element array) is canonical. *)
Theorem isLastVarFromSensor_contract (arr : VariableArray) (i : nat) :
  well_formed arr ->
  (i < count arr)%nat ->
  exists b : bool,
    isLastVarFromSensor arr i = Some b
    /\ (b = true <->
        forall j : nat, (i < j < count arr)%nat -> key_at arr j <> key_at arr i)
    /\ (S i = count arr -> b = true).
Proof.
  intros Hwf Hi.
  destruct (well_formed_split arr i Hwf Hi) as (pre & v & suf & Hl & Hlen).
  pose proof (count_well_formed arr Hwf) as Hc.
  exists (negb (existsb (same_sensor v) suf)).
  assert (Hkey : forall k, key_at arr (S i + k)
                           = option_map sensor_key (nth_error suf k)).
  { intros k. unfold key_at, variable_at. rewrite Hl.
    rewrite nth_error_app2 by lia.
    replace (S i + k - List.length pre)%nat with (S k) by lia.
    reflexivity. }
  assert (Hi0 : key_at arr i = Some (sensor_key v)).
  { unfold key_at. rewrite <- Hlen.
    rewrite (variable_at_middle arr pre suf v Hl). reflexivity. }
  split; [|split].
  - rewrite <- Hlen. apply isLastVarFromSensor_middle.
    + exact Hl.
    + rewrite Hc, Hl. reflexivity.
  - rewrite negb_true_iff. split.
    + intros Hex j Hj Heq.
      replace j with (S i + (j - S i))%nat in Heq by lia.
      rewrite Hkey, Hi0 in Heq.
      destruct (nth_error suf (j - S i)) as [u|] eqn:Eu; [|discriminate].
      cbn [option_map] in Heq.
      assert (Hs : same_sensor v u = true)
        by (apply same_sensor_key; congruence).
      assert (Hin : existsb (same_sensor v) suf = true).
      { apply existsb_exists. exists u. split; [|exact Hs].
        eapply nth_error_In; eauto. }
      congruence.
    + intros Hall.
      destruct (existsb (same_sensor v) suf) eqn:Hex; [|reflexivity].
      exfalso. apply existsb_exists in Hex. destruct Hex as (u & Hin & Hs).
      apply In_nth_error in Hin. destruct Hin as (k & Hk).
      apply (Hall (S i + k)%nat).
      * assert (k < List.length suf)%nat
          by (apply nth_error_Some; congruence).
        rewrite Hc, Hl, length_app. simpl. lia.
      * rewrite Hkey, Hk, Hi0. cbn [option_map]. f_equal.
        apply same_sensor_key. exact Hs.
  - intros HS. rewrite Hc, Hl, length_app in HS. simpl in HS.
    assert (suf = []) by (destruct suf; [reflexivity | simpl in HS; lia]).
    subst suf. reflexivity.
Qed.

(* --------------------------------------------------------------------- *)
(** ** Canonical indices and distinct sensors *)

Lemma is_canonical_middle (arr : VariableArray)
      (pre suf : list Var) (v : Var) :
  _variableList arr = pre ++ v :: suf ->
  count arr = List.length (pre ++ v :: suf) ->
  is_canonical arr (List.length pre) = negb (existsb (same_sensor v) suf).
Proof.
  intros Hl Hc. unfold is_canonical.
  rewrite (isLastVarFromSensor_middle arr pre suf v Hl Hc).
  destruct (existsb (same_sensor v) suf); reflexivity.
Qed.

Lemma count_middle (arr : VariableArray) (pre suf : list Var) (v : Var) :
  count arr = List.length (pre ++ v :: suf) ->
  count arr = List.length ((pre ++ [v]) ++ suf).
Proof. intros ->. rewrite <- snoc_middle. reflexivity. Qed.

(** The handles at the canonical indices behind [pre] are [canonical suf]. *)
Lemma canonical_handles_suffix (arr : VariableArray) :
  forall (suf pre : list Var),
    _variableList arr = pre ++ suf ->
    count arr = List.length (pre ++ suf) ->
    handles_at arr (filter (is_canonical arr)
                           (seq (List.length pre) (List.length suf)))
    = canonical suf.
Proof.
  induction suf as [|v suf IH]; intros pre Hl Hc.
  - reflexivity.
  - cbn [List.length seq filter canonical].
    rewrite (is_canonical_middle arr pre suf v Hl Hc).
    specialize (IH (pre ++ [v])). rewrite length_snoc in IH.
    destruct (existsb (same_sensor v) suf); cbn [negb].
    + apply IH; [rewrite Hl; apply snoc_middle | eapply count_middle; eauto].
    + unfold handles_at. cbn [flat_map].
      rewrite (variable_at_middle arr pre suf v Hl).
      cbn [app]. f_equal.
      apply IH; [rewrite Hl; apply snoc_middle | eapply count_middle; eauto].
Qed.

Lemma canonical_indices_suffix_length (arr : VariableArray) :
  forall (suf pre : list Var),
    _variableList arr = pre ++ suf ->
    count arr = List.length (pre ++ suf) ->
    List.length (filter (is_canonical arr)
                        (seq (List.length pre) (List.length suf)))
    = List.length (canonical suf).
Proof.
  induction suf as [|v suf IH]; intros pre Hl Hc.
  - reflexivity.
  - cbn [List.length seq filter canonical].
    rewrite (is_canonical_middle arr pre suf v Hl Hc).
    specialize (IH (pre ++ [v])). rewrite length_snoc in IH.
    destruct (existsb (same_sensor v) suf); cbn [negb List.length].
    + apply IH; [rewrite Hl; apply snoc_middle | eapply count_middle; eauto].
    + f_equal.
      apply IH; [rewrite Hl; apply snoc_middle | eapply count_middle; eauto].
Qed.

Lemma canonical_handles_well_formed (arr : VariableArray) :
  well_formed arr -> canonical_handles arr = canonical (_variableList arr).
Proof.
  intros Hwf. unfold canonical_handles, canonical_indices.
  rewrite (count_well_formed arr Hwf).
  apply (canonical_handles_suffix arr (_variableList arr) []).
  - reflexivity.
  - apply (count_well_formed arr Hwf).
Qed.

Lemma canonical_indices_length (arr : VariableArray) :
  well_formed arr ->
  List.length (canonical_indices arr)
  = List.length (canonical (_variableList arr)).
Proof.
  intros Hwf. unfold canonical_indices.
  rewrite (count_well_formed arr Hwf).
  apply (canonical_indices_suffix_length arr (_variableList arr) []).
  - reflexivity.
  - apply (count_well_formed arr Hwf).
Qed.

Lemma existsb_same_sensor_In (v : Var) (vl : list Var) :
  existsb (same_sensor v) vl = true <-> In (sensor_key v) (map sensor_key vl).
Proof.
  rewrite existsb_exists, in_map_iff.
  split; intros (u & H1 & H2); exists u.
  - split; [apply same_sensor_key; exact H2 | exact H1].
  - split; [exact H2 | apply same_sensor_key; exact H1].
Qed.

(** The canonical handles carry each distinct pair once. *)
Lemma canonical_distinct (vl : list Var) :
  map sensor_key (canonical vl) = distinct_sensors vl.
Proof.
  unfold distinct_sensors.
  induction vl as [|v vl IH]; [reflexivity|].
  cbn [canonical map nodup].
  destruct (in_dec key_eq_dec (sensor_key v) (map sensor_key vl)) as [Hin|Hin].
  - apply existsb_same_sensor_In in Hin. rewrite Hin. exact IH.
  - destruct (existsb (same_sensor v) vl) eqn:E.
    + apply existsb_same_sensor_In in E. contradiction.
    + cbn [map]. f_equal. exact IH.
Qed.

Lemma count_sensors_suffix (arr : VariableArray) :
  forall (suf pre : list Var) (numSensors : Z),
    _variableList arr = pre ++ suf ->
    count arr = List.length (pre ++ suf) ->
    count_sensors arr (List.length suf) (List.length pre) numSensors
    = Some (numSensors + Z.of_nat (List.length (canonical suf))).
Proof.
  induction suf as [|v suf IH]; intros pre n Hl Hc.
  - cbn. f_equal. lia.
  - cbn [List.length count_sensors canonical].
    rewrite (isLastVarFromSensor_middle arr pre suf v Hl Hc).
    specialize (IH (pre ++ [v])). rewrite length_snoc in IH.
    destruct (existsb (same_sensor v) suf); cbn [negb].
    + apply IH; [rewrite Hl; apply snoc_middle | eapply count_middle; eauto].
    + rewrite IH;
        [| rewrite Hl; apply snoc_middle | eapply count_middle; eauto].
      cbn [List.length]. f_equal. lia.
Qed.

(** C5. For every well-formed array, [getSensorCount] returns 1 plus the
    number of canonical indices.  The handles at the canonical indices
    carry every distinct (name, location) pair exactly once, so the result
    is the number of distinct sensors plus 1; it is 1 for an empty
    array. *)
Theorem getSensorCount_bias (arr : VariableArray) :
  well_formed arr ->
  getSensorCount arr
  = Some (1 + Z.of_nat (List.length (canonical_indices arr)))
  /\ map sensor_key (canonical_handles arr)
     = distinct_sensors (_variableList arr)
  /\ NoDup (map sensor_key (canonical_handles arr))
  /\ List.length (canonical_handles arr)
     = List.length (canonical_indices arr)
  /\ getSensorCount arr
     = Some (Z.of_nat (List.length (distinct_sensors (_variableList arr))) + 1)
  /\ (_variableList arr = [] -> getSensorCount arr = Some 1).
Proof.
  intros Hwf.
  pose proof (count_well_formed arr Hwf) as Hc.
  assert (Hg : getSensorCount arr
               = Some (1 + Z.of_nat
                             (List.length (canonical (_variableList arr))))).
  { unfold getSensorCount. cbv zeta. rewrite Hc.
    apply (count_sensors_suffix arr (_variableList arr) []);
      [reflexivity | exact Hc]. }
  assert (Hd : map sensor_key (canonical_handles arr)
               = distinct_sensors (_variableList arr)).
  { rewrite (canonical_handles_well_formed arr Hwf). apply canonical_distinct. }
  repeat split.
  - rewrite (canonical_indices_length arr Hwf). exact Hg.
  - exact Hd.
  - rewrite Hd. apply NoDup_nodup.
  - rewrite (canonical_handles_well_formed arr Hwf).
    symmetry. apply (canonical_indices_length arr Hwf).
  - rewrite Hg. f_equal.
    rewrite <- canonical_distinct, length_map. lia.
  - intros Hnil. rewrite Hg, Hnil. reflexivity.
Qed.

(* --------------------------------------------------------------------- *)
(** ** Sleep, wake and update *)

Lemma state_eta (st : State) : mkState (world st) (trace st) = st.
Proof. destruct st. reflexivity. Qed.

Lemma last_cons (A : Type) (x d : A) (l : list A) :
  last (x :: l) d = last l x.
Proof.
  revert x d. induction l as [|y l IH]; intros x d; [reflexivity|].
  change (last (x :: y :: l) d) with (last (y :: l) d).
  rewrite (IH y d), (IH y x). reflexivity.
Qed.

(** One step of a loop over the canonical sensors. *)
Lemma sensor_do_run (op : SensorOp) (s : Sensor) (st : State) :
  sensor_do op s st
  = Ok (fst (Sensor_call op s (world st)))
       (mkState (snd (Sensor_call op s (world st)))
                (trace st ++ [EvSensor op s (fst (Sensor_call op s (world st)))])).
Proof.
  unfold sensor_do, bind, hardware, emit, ret.
  destruct (Sensor_call op s (world st)) as [ok w]. reflexivity.
Qed.

Lemma replay_cons (op : SensorOp) (s : Sensor) (ss : list Sensor) (w : World) :
  replay op (s :: ss) w
  = (EvSensor op s (fst (Sensor_call op s w))
       :: fst (replay op ss (snd (Sensor_call op s w))),
     snd (replay op ss (snd (Sensor_call op s w)))).
Proof.
  cbn [replay]. destruct (Sensor_call op s w) as [ok w1]. cbn [fst snd].
  destruct (replay op ss w1). reflexivity.
Qed.

Lemma replay_length (op : SensorOp) (ss : list Sensor) :
  forall w, List.length (fst (replay op ss w)) = List.length ss.
Proof.
  induction ss as [|s ss IH]; intros w; [reflexivity|].
  rewrite replay_cons. cbn [fst List.length]. f_equal. apply IH.
Qed.

Lemma canonical_and_loop (arr : VariableArray) (op : SensorOp) :
  forall (suf pre : list Var) (success : bool) (st : State),
    _variableList arr = pre ++ suf ->
    count arr = List.length (pre ++ suf) ->
    for_loop (List.length suf) (List.length pre)
             (canonical_and_body arr op) success st
    = let r := replay op (map parentSensor (canonical suf)) (world st) in
      Ok (success && forallb ev_ok (fst r))
         (mkState (snd r) (trace st ++ fst r)).
Proof.
  induction suf as [|v suf IH]; intros pre success st Hl Hc; cbv zeta.
  - cbn. rewrite andb_true_r, app_nil_r, state_eta. reflexivity.
  - cbn [List.length for_loop canonical].
    unfold bind at 1. unfold canonical_and_body at 1.
    unfold bind at 1. unfold lift at 1.
    rewrite (isLastVarFromSensor_middle arr pre suf v Hl Hc).
    specialize (IH (pre ++ [v])). rewrite length_snoc in IH.
    destruct (existsb (same_sensor v) suf); cbn [negb].
    + unfold ret at 1.
      apply IH; [rewrite Hl; apply snoc_middle | eapply count_middle; eauto].
    + unfold bind at 1. unfold lift at 1.
      rewrite (variable_at_middle arr pre suf v Hl).
      unfold bind at 1. rewrite sensor_do_run. unfold ret at 1.
      rewrite IH;
        [| rewrite Hl; apply snoc_middle | eapply count_middle; eauto].
      cbv zeta. cbn [world trace map].
      rewrite replay_cons. cbn [fst snd forallb ev_ok].
      rewrite andb_assoc, <- app_assoc. reflexivity.
Qed.

Lemma update_loop (arr : VariableArray) :
  forall (suf pre : list Var) (update_success : bool) (st : State),
    _variableList arr = pre ++ suf ->
    count arr = List.length (pre ++ suf) ->
    for_loop (List.length suf) (List.length pre)
             (update_body arr) update_success st
    = let r := replay OpUpdate (map parentSensor (canonical suf)) (world st) in
      Ok (last (map ev_ok (fst r)) update_success)
         (mkState (snd r) (trace st ++ fst r)).
Proof.
  induction suf as [|v suf IH]; intros pre acc st Hl Hc; cbv zeta.
  - cbn. rewrite app_nil_r, state_eta. reflexivity.
  - cbn [List.length for_loop canonical].
    unfold bind at 1. unfold update_body at 1.
    unfold bind at 1. unfold lift at 1.
    rewrite (isLastVarFromSensor_middle arr pre suf v Hl Hc).
    specialize (IH (pre ++ [v])). rewrite length_snoc in IH.
    destruct (existsb (same_sensor v) suf); cbn [negb].
    + unfold ret at 1.
      apply IH; [rewrite Hl; apply snoc_middle | eapply count_middle; eauto].
    + unfold bind at 1. unfold lift at 1.
      rewrite (variable_at_middle arr pre suf v Hl).
      rewrite sensor_do_run.
      rewrite IH;
        [| rewrite Hl; apply snoc_middle | eapply count_middle; eauto].
      cbv zeta. cbn [world trace map].
      rewrite replay_cons. cbn [fst snd map ev_ok].
      rewrite last_cons, <- app_assoc. reflexivity.
Qed.

(** C7. For every well-formed array, [sensorsSleep] and [sensorsWake] call
    sleep (respectively wake) on the parent sensor of each canonical
    index, once each and in order, and nothing else; each returns the
    conjunction of the results of these calls (true for an empty array). *)
Theorem sensorsSleep_sensorsWake_conjunction
        (arr : VariableArray) (st : State) :
  well_formed arr ->
  let sleeps :=
    replay OpSleep (map parentSensor (canonical_handles arr)) (world st) in
  let wakes :=
    replay OpWake (map parentSensor (canonical_handles arr)) (world st) in
  sensorsSleep arr st
  = Ok (forallb ev_ok (fst sleeps))
       (mkState (snd sleeps) (trace st ++ fst sleeps))
  /\ sensorsWake arr st
     = Ok (forallb ev_ok (fst wakes))
          (mkState (snd wakes) (trace st ++ fst wakes))
  /\ List.length (fst sleeps) = List.length (canonical_indices arr)
  /\ List.length (fst wakes) = List.length (canonical_indices arr)
  /\ List.length (canonical_indices arr)
     = List.length (distinct_sensors (_variableList arr)).
Proof.
  intros Hwf sleeps wakes. subst sleeps wakes.
  pose proof (count_well_formed arr Hwf) as Hc.
  rewrite !replay_length, length_map.
  rewrite (canonical_handles_well_formed arr Hwf).
  rewrite (canonical_indices_length arr Hwf).
  unfold sensorsSleep, sensorsWake. cbv zeta. rewrite Hc.
  pose proof (canonical_and_loop arr OpSleep (_variableList arr) [] true st
                eq_refl Hc) as Hs.
  pose proof (canonical_and_loop arr OpWake (_variableList arr) [] true st
                eq_refl Hc) as Hw.
  cbn [List.length] in Hs, Hw. rewrite Hs, Hw.
  cbv zeta. cbn [andb].
  repeat split.
  rewrite <- canonical_distinct, length_map. reflexivity.
Qed.

(** C4. For every well-formed array, [updateAllSensors] calls update on
    the parent sensor of each canonical index, once each and in order, and
    returns the result of the last of these calls alone (true when there
    is none, that is for an empty array): earlier failures are lost. *)
Theorem updateAllSensors_last_result (arr : VariableArray) (st : State) :
  well_formed arr ->
  let updates :=
    replay OpUpdate (map parentSensor (canonical_handles arr)) (world st) in
  updateAllSensors arr st
  = Ok (last (map ev_ok (fst updates)) true)
       (mkState (snd updates) (trace st ++ fst updates))
  /\ List.length (fst updates) = List.length (canonical_indices arr)
  /\ (_variableList arr = [] -> fst updates = []).
Proof.
  intros Hwf updates. subst updates.
  pose proof (count_well_formed arr Hwf) as Hc.
  rewrite !replay_length, length_map.
  rewrite (canonical_handles_well_formed arr Hwf).
  rewrite (canonical_indices_length arr Hwf).
  unfold updateAllSensors. cbv zeta. unfold bind. rewrite Hc.
  pose proof (update_loop arr (_variableList arr) [] true st eq_refl Hc)
    as Hu.
  cbn [List.length] in Hu. rewrite Hu.
  cbv zeta. unfold ret. cbn [andb].
  repeat split.
  intros ->. reflexivity.
Qed.

(* --------------------------------------------------------------------- *)
(** ** CSV serialization *)

Lemma string_app_assoc (a b c : string) :
  ((a ++ b) ++ c)%string = (a ++ (b ++ c))%string.
Proof.
  induction a as [|ch a IH]; [reflexivity|].
  cbn [append]. rewrite IH. reflexivity.
Qed.

Lemma csv_loop_suffix (arr : VariableArray) (w : World) :
  forall (suf pre : list Var) (csvString : string),
    _variableList arr = pre ++ suf ->
    count arr = List.length (pre ++ suf) ->
    csv_loop arr w (List.length suf) (List.length pre) csvString
    = Some (csvString
            ++ String.concat ", " (map (fun v => getValueString v w) suf))%string.
Proof.
  induction suf as [|v suf IH]; intros pre csv Hl Hc.
  - cbn. f_equal. clear. induction csv as [|ch csv IH]; [reflexivity|].
    cbn [append]. rewrite <- IH. reflexivity.
  - cbn [List.length csv_loop].
    rewrite (variable_at_middle arr pre suf v Hl). cbv zeta.
    specialize (IH (pre ++ [v])). rewrite length_snoc in IH.
    destruct suf as [|u suf].
    + assert (E : Nat.eqb (List.length pre + 1) (count arr) = true).
      { apply Nat.eqb_eq. rewrite Hc, length_app. simpl. lia. }
      rewrite E. reflexivity.
    + assert (E : Nat.eqb (List.length pre + 1) (count arr) = false).
      { apply Nat.eqb_neq. rewrite Hc, length_app. simpl. lia. }
      rewrite E. cbn [negb].
      rewrite IH;
        [| rewrite Hl; apply snoc_middle | eapply count_middle; eauto].
      f_equal. cbn [map String.concat].
      rewrite !string_app_assoc. reflexivity.
Qed.

(** C8. For every well-formed array, [generateSensorDataCSV] is the
    value-as-text of every handle, duplicates included, in array order,
    joined by the separator ", " (comma, space): nothing follows the last
    field and the empty array gives the empty string. *)
Theorem generateSensorDataCSV_shape (arr : VariableArray) (w : World) :
  well_formed arr ->
  generateSensorDataCSV arr w
  = Some (String.concat ", "
            (map (fun v => getValueString v w) (_variableList arr)))
  /\ (_variableList arr = [] -> generateSensorDataCSV arr w = Some EmptyString)
  /\ (forall v1 v2 v3 : Var,
         _variableList arr = [v1; v2; v3] ->
         generateSensorDataCSV arr w
         = Some (getValueString v1 w ++ ", " ++ getValueString v2 w
                 ++ ", " ++ getValueString v3 w)%string).
Proof.
  intros Hwf.
  pose proof (count_well_formed arr Hwf) as Hc.
  assert (Hg : generateSensorDataCSV arr w
               = Some (String.concat ", "
                         (map (fun v => getValueString v w)
                              (_variableList arr)))).
  { unfold generateSensorDataCSV. rewrite Hc.
    pose proof (csv_loop_suffix arr w (_variableList arr) [] EmptyString
                  eq_refl Hc) as H.
    cbn [List.length] in H. rewrite H. reflexivity. }
  split; [exact Hg|]. split.
  - intros Hnil. rewrite Hg, Hnil. reflexivity.
  - intros v1 v2 v3 Hl. rewrite Hg, Hl. reflexivity.
Qed.

(* --------------------------------------------------------------------- *)
(** ** Setup *)

Lemma attempts_succ (k : nat) (s : Sensor) (w : World) :
  attempts (S k) s w
  = if fst (Sensor_call OpSetup s w)
    then ([true], snd (Sensor_call OpSetup s w))
    else (false :: fst (attempts k s (snd (Sensor_call OpSetup s w))),
          snd (attempts k s (snd (Sensor_call OpSetup s w)))).
Proof.
  cbn [attempts]. destruct (Sensor_call OpSetup s w) as [ok w1].
  cbn [fst snd]. destruct ok; [reflexivity|].
  destruct (attempts k s w1). reflexivity.
Qed.

Lemma attempts_all_true (k : nat) (s : Sensor) (w : World) :
  forallb (fun ok : bool => ok) (fst (attempts (S k) s w)) = true ->
  fst (attempts (S k) s w) = [true].
Proof.
  rewrite attempts_succ.
  destruct (fst (Sensor_call OpSetup s w)); cbn; [reflexivity | discriminate].
Qed.

(** The while loop makes the attempts that the budget left by the earlier
    handles allows. *)
Lemma setup_while_attempts (arr : VariableArray) (i : nat) (v : Var) :
  variable_at arr i = Some v ->
  forall (fuel setupTries : nat) (sensorSuccess : bool) (st : State),
    (5 - setupTries <= fuel)%nat ->
    setup_while arr i fuel sensorSuccess setupTries st
    = let r := attempts (5 - setupTries) (parentSensor v) (world st) in
      Ok (last (fst r) sensorSuccess,
          (setupTries + List.length (filter negb (fst r)))%nat)
         (mkState (snd r)
                  (trace st ++ map (EvSensor OpSetup (parentSensor v)) (fst r))).
Proof.
  intros Hv. induction fuel as [|fuel IH]; intros tries ss st Hf; cbv zeta.
  - assert (E : (tries <? 5)%nat = false) by (apply Nat.ltb_ge; lia).
    cbn [setup_while]. rewrite E.
    replace (5 - tries)%nat with 0%nat by lia.
    cbn. unfold ret. rewrite app_nil_r, Nat.add_0_r, state_eta. reflexivity.
  - cbn [setup_while].
    destruct (tries <? 5)%nat eqn:E.
    + apply Nat.ltb_lt in E.
      replace (5 - tries)%nat with (S (5 - (tries + 1))) by lia.
      rewrite attempts_succ.
      unfold bind at 1. unfold lift at 1. rewrite Hv.
      unfold bind at 1. rewrite sensor_do_run.
      destruct (fst (Sensor_call OpSetup (parentSensor v) (world st))).
      * unfold ret. cbn. rewrite Nat.add_0_r. reflexivity.
      * rewrite IH by lia. cbv zeta. cbn [world trace fst snd].
        rewrite last_cons. cbn [filter negb List.length map].
        rewrite <- app_assoc. cbn [app].
        f_equal. f_equal. lia.
    + apply Nat.ltb_ge in E.
      replace (5 - tries)%nat with 0%nat by lia.
      cbn. unfold ret. rewrite app_nil_r, Nat.add_0_r, state_eta. reflexivity.
Qed.

Lemma setup_pass_body_run (arr : VariableArray) (i : nat) (v : Var)
      (success sensorSuccess : bool) (setupTries : nat) (st : State) :
  variable_at arr i = Some v ->
  let r := attempts (5 - setupTries) (parentSensor v) (world st) in
  let ok := last (fst r) sensorSuccess in
  setup_pass_body arr i (success, sensorSuccess, setupTries) st
  = Ok (success && ok, ok,
        (setupTries + List.length (filter negb (fst r)))%nat)
       (mkState (snd r)
                (trace st
                 ++ map (EvSensor OpSetup (parentSensor v)) (fst r)
                 ++ (if ok then [] else [EvSetupFailed v]))).
Proof.
  intros Hv r ok. subst r ok. unfold setup_pass_body.
  unfold bind at 1.
  rewrite (setup_while_attempts arr i v Hv) by lia. cbv zeta.
  destruct (last _ sensorSuccess); cbn [negb].
  - unfold bind, ret. rewrite app_nil_r. reflexivity.
  - unfold bind, lift, emit, ret. rewrite Hv. cbn [world trace].
    rewrite app_assoc. reflexivity.
Qed.

Lemma setup_calls_attempts (s : Sensor) (rs : list bool) :
  setup_calls (map (EvSensor OpSetup s) rs) = map (pair s) rs.
Proof.
  induction rs as [|r rs IH]; [reflexivity|].
  cbn [map]. unfold setup_calls in *. cbn [flat_map app]. rewrite IH.
  reflexivity.
Qed.

Lemma attach_calls_attempts (s : Sensor) (rs : list bool) :
  attach_calls (map (EvSensor OpSetup s) rs) = [].
Proof. induction rs as [|r rs IH]; [reflexivity | exact IH]. Qed.

Lemma failure_reports_attempts (s : Sensor) (rs : list bool) :
  failure_reports (map (EvSensor OpSetup s) rs) = [].
Proof. induction rs as [|r rs IH]; [reflexivity | exact IH]. Qed.

Lemma setup_calls_app (l1 l2 : list Event) :
  setup_calls (l1 ++ l2) = setup_calls l1 ++ setup_calls l2.
Proof. apply flat_map_app. Qed.

Lemma attach_calls_app (l1 l2 : list Event) :
  attach_calls (l1 ++ l2) = attach_calls l1 ++ attach_calls l2.
Proof. apply flat_map_app. Qed.

Lemma failure_reports_app (l1 l2 : list Event) :
  failure_reports (l1 ++ l2) = failure_reports l1 ++ failure_reports l2.
Proof. apply flat_map_app. Qed.

Lemma forallb_pair (s : Sensor) (rs : list bool) :
  forallb snd (map (pair s) rs) = forallb (fun ok : bool => ok) rs.
Proof.
  induction rs as [|r rs IH]; [reflexivity|].
  cbn [map forallb snd]. rewrite IH. reflexivity.
Qed.

(** The first pass of [setupSensors] over the handles behind [pre]. *)
Lemma setup_pass_loop (arr : VariableArray) :
  forall (suf pre : list Var) (success sensorSuccess : bool)
         (setupTries : nat) (st : State),
    _variableList arr = pre ++ suf ->
    exists (success' ok' : bool) (tries' : nat) (evs : list Event) (w' : World),
      for_loop (List.length suf) (List.length pre) (setup_pass_body arr)
               (success, sensorSuccess, setupTries) st
      = Ok (success', ok', tries') (mkState w' (trace st ++ evs))
      /\ attach_calls evs = []
      /\ success' = success && no_report evs
      /\ ((setupTries < 5)%nat ->
          forallb snd (setup_calls evs) = true ->
          setup_calls evs = map (fun v => (parentSensor v, true)) suf
          /\ failure_reports evs = []).
Proof.
  induction suf as [|v suf IH]; intros pre success ss tries st Hl.
  - exists success, ss, tries, [], (world st).
    cbn. rewrite app_nil_r, state_eta, andb_true_r. repeat split.
  - cbn [List.length for_loop]. unfold bind at 1.
    pose proof (variable_at_middle arr pre suf v Hl) as Hv.
    rewrite (setup_pass_body_run arr _ v success ss tries st Hv). cbv zeta.
    set (r := attempts (5 - tries) (parentSensor v) (world st)).
    set (ok := last (fst r) ss).
    set (report := if ok then [] else [EvSetupFailed v]).
    set (st1 := mkState (snd r) _).
    destruct (IH (pre ++ [v]) (success && ok) ok
                 (tries + List.length (filter negb (fst r)))%nat st1)
      as (success' & ok' & tries' & evs & w' & Hrun & Hatt & Hsucc & Hall).
    { rewrite Hl. apply snoc_middle. }
    rewrite length_snoc in Hrun.
    exists success', ok', tries',
      (map (EvSensor OpSetup (parentSensor v)) (fst r) ++ report ++ evs), w'.
    split; [|split; [|split]].
    + rewrite Hrun. subst st1. cbn [trace].
      rewrite <- !app_assoc. reflexivity.
    + rewrite !attach_calls_app, attach_calls_attempts, Hatt.
      subst report. destruct ok; reflexivity.
    + rewrite Hsucc. unfold no_report.
      rewrite !failure_reports_app, failure_reports_attempts.
      subst report. destruct ok; cbn.
      * rewrite andb_true_r. reflexivity.
      * rewrite !andb_false_r. reflexivity.
    + intros Ht Hok.
      rewrite !setup_calls_app, setup_calls_attempts in Hok.
      rewrite !forallb_app, forallb_pair in Hok.
      apply andb_true_iff in Hok. destruct Hok as [Hrs Hok].
      apply andb_true_iff in Hok. destruct Hok as [_ Hok].
      assert (Hone : fst r = [true]).
      { subst r. revert Hrs.
        replace (5 - tries)%nat with (S (5 - (tries + 1))) by lia.
        apply attempts_all_true. }
      assert (Eok : ok = true) by (subst ok; rewrite Hone; reflexivity).
      rewrite Hone in Hall. cbn [filter negb List.length] in Hall.
      destruct Hall as [Hcalls Hrep]; [lia | exact Hok |].
      rewrite !setup_calls_app, setup_calls_attempts, Hone, Hcalls.
      rewrite !failure_reports_app, failure_reports_attempts, Hrep.
      subst report. rewrite Eok. split; reflexivity.
Qed.

Lemma variable_attach_run (v : Var) (st : State) :
  variable_attach v st
  = Ok (fst (Variable_setup v (world st)))
       (mkState (snd (Variable_setup v (world st)))
                (trace st ++ [EvAttach v (fst (Variable_setup v (world st)))])).
Proof.
  unfold variable_attach, bind, hardware, emit, ret.
  destruct (Variable_setup v (world st)) as [ok w]. reflexivity.
Qed.

Lemma attach_all_cons (v : Var) (vs : list Var) (w : World) :
  attach_all (v :: vs) w
  = (EvAttach v (fst (Variable_setup v w))
       :: fst (attach_all vs (snd (Variable_setup v w))),
     snd (attach_all vs (snd (Variable_setup v w)))).
Proof.
  cbn [attach_all]. destruct (Variable_setup v w) as [ok w1]. cbn [fst snd].
  destruct (attach_all vs w1). reflexivity.
Qed.

(** What a run of attach steps leaves in the trace. *)
Lemma attach_all_trace (vs : list Var) :
  forall w : World,
    let evs := fst (attach_all vs w) in
    map fst (attach_calls evs) = vs
    /\ evs = map (fun p => EvAttach (fst p) (snd p)) (attach_calls evs)
    /\ forallb ev_ok evs = forallb snd (attach_calls evs)
    /\ setup_calls evs = []
    /\ failure_reports evs = [].
Proof.
  induction vs as [|v vs IH]; intros w; cbv zeta.
  - cbn. repeat split.
  - rewrite attach_all_cons. cbn [fst].
    destruct (IH (snd (Variable_setup v w))) as (H1 & H2 & H3 & H4 & H5).
    unfold attach_calls, setup_calls, failure_reports in *.
    cbn [flat_map app map fst snd forallb ev_ok].
    rewrite H1, <- H2, H3, H4, H5. repeat split.
Qed.

(** The second pass of [setupSensors] over the handles behind [pre]. *)
Lemma attach_pass_loop (arr : VariableArray) :
  forall (suf pre : list Var) (success : bool) (st : State),
    _variableList arr = pre ++ suf ->
    for_loop (List.length suf) (List.length pre) (attach_pass_body arr)
             success st
    = let r := attach_all suf (world st) in
      Ok (success && forallb ev_ok (fst r))
         (mkState (snd r) (trace st ++ fst r)).
Proof.
  induction suf as [|v suf IH]; intros pre success st Hl; cbv zeta.
  - cbn. rewrite andb_true_r, app_nil_r, state_eta. reflexivity.
  - cbn [List.length for_loop].
    unfold bind at 1. unfold attach_pass_body at 1.
    unfold bind at 1. unfold lift at 1.
    rewrite (variable_at_middle arr pre suf v Hl).
    unfold bind at 1. rewrite variable_attach_run. unfold ret at 1.
    specialize (IH (pre ++ [v])). rewrite length_snoc in IH.
    rewrite IH by (rewrite Hl; apply snoc_middle).
    cbv zeta. cbn [world trace].
    rewrite attach_all_cons. cbn [fst snd forallb ev_ok].
    rewrite andb_assoc, <- app_assoc. reflexivity.
Qed.

(** A whole run of [setupSensors]: the setup pass, then the attach pass. *)
Lemma setupSensors_run (arr : VariableArray) (st : State) :
  well_formed arr ->
  exists (setup_evs : list Event) (w1 : World),
    let attached := attach_all (_variableList arr) w1 in
    setupSensors arr st
    = Ok (no_report setup_evs && forallb ev_ok (fst attached))
         (mkState (snd attached) (trace st ++ setup_evs ++ fst attached))
    /\ attach_calls setup_evs = []
    /\ (forallb snd (setup_calls setup_evs) = true ->
        setup_calls setup_evs
        = map (fun v => (parentSensor v, true)) (_variableList arr)
        /\ failure_reports setup_evs = []).
Proof.
  intros Hwf. pose proof (count_well_formed arr Hwf) as Hc.
  destruct (setup_pass_loop arr (_variableList arr) [] true false 0%nat st
              eq_refl)
    as (success' & ok' & tries' & evs & w1 & Hrun & Hatt & Hsucc & Hall).
  cbn [List.length andb] in Hrun, Hsucc.
  exists evs, w1. cbv zeta.
  split; [|split].
  - unfold setupSensors. cbv zeta. unfold bind at 1.
    rewrite Hc, Hrun. unfold bind at 1.
    pose proof (attach_pass_loop arr (_variableList arr) [] success'
                  (mkState w1 (trace st ++ evs)) eq_refl) as Ha.
    cbn [List.length] in Ha. rewrite Ha. cbv zeta. unfold ret.
    cbn [world trace]. rewrite Hsucc, <- app_assoc. reflexivity.
  - exact Hatt.
  - apply Hall. lia.
Qed.

(** C6 (as amended). For every well-formed array, [setupSensors] returns;
    after the events of the setup pass, which contain no attach step, it
    performs the attach step of every handle exactly once and in array
    order, duplicates included, whatever failed before; it returns true
    if and only if no handle was reported as failed in the setup pass and
    every attach step succeeded. *)
Theorem setupSensors_aggregation (arr : VariableArray) (st : State) :
  well_formed arr ->
  exists (b : bool) (st' : State) (setup_evs attach_evs : list Event),
    setupSensors arr st = Ok b st'
    /\ trace st' = trace st ++ setup_evs ++ attach_evs
    /\ attach_calls setup_evs = []
    /\ attach_evs
       = map (fun p => EvAttach (fst p) (snd p)) (attach_calls attach_evs)
    /\ map fst (attach_calls attach_evs) = _variableList arr
    /\ (b = true <->
        failure_reports setup_evs = []
        /\ forallb snd (attach_calls attach_evs) = true).
Proof.
  intros Hwf.
  destruct (setupSensors_run arr st Hwf) as (evs & w1 & Hrun & Hatt & _).
  cbv zeta in Hrun.
  destruct (attach_all_trace (_variableList arr) w1)
    as (H1 & H2 & H3 & _ & _).
  cbv zeta in H1, H2, H3.
  eexists _, _, evs, (fst (attach_all (_variableList arr) w1)).
  split; [exact Hrun|]. cbn [trace].
  split; [reflexivity|]. split; [exact Hatt|].
  split; [exact H2|]. split; [exact H1|].
  rewrite andb_true_iff, H3. unfold no_report.
  destruct (failure_reports evs); split; intros [Ha Hb]; split;
    try assumption; try reflexivity; discriminate.
Qed.

(** C3 (as amended). For every well-formed array, [setupSensors] returns
    and attaches every handle once; in a run where no setup call fails (no
    retries), it calls the underlying sensor setup once per handle, in
    array order, duplicates included: as many setup calls as handles, not
    as many as distinct (name, location) pairs. *)
Theorem setupSensors_once_per_handle (arr : VariableArray) (st : State) :
  well_formed arr ->
  exists (b : bool) (st' : State) (evs : list Event),
    setupSensors arr st = Ok b st'
    /\ trace st' = trace st ++ evs
    /\ map fst (attach_calls evs) = _variableList arr
    /\ (forallb snd (setup_calls evs) = true ->
        setup_calls evs
        = map (fun v => (parentSensor v, true)) (_variableList arr)
        /\ List.length (setup_calls evs) = List.length (_variableList arr)).
Proof.
  intros Hwf.
  destruct (setupSensors_run arr st Hwf) as (evs & w1 & Hrun & Hatt & Hall).
  cbv zeta in Hrun.
  destruct (attach_all_trace (_variableList arr) w1)
    as (H1 & _ & _ & H4 & _).
  cbv zeta in H1, H4.
  eexists _, _, (evs ++ fst (attach_all (_variableList arr) w1)).
  split; [exact Hrun|]. cbn [trace].
  split; [reflexivity|].
  rewrite attach_calls_app, Hatt, setup_calls_app, H4, app_nil_r.
  split; [exact H1|].
  intros Hok. destruct (Hall Hok) as [Hcalls _].
  split; [exact Hcalls|].
  rewrite Hcalls, length_map. reflexivity.
Qed.

(* --------------------------------------------------------------------- *)
(** ** Only the handles below the stored count are visited *)

Lemma for_loop_ext (A : Type) (body body' : nat -> A -> M A) :
  forall (n i : nat) (acc : A) (st : State),
    (forall k a s, (i <= k < i + n)%nat -> body k a s = body' k a s) ->
    for_loop n i body acc st = for_loop n i body' acc st.
Proof.
  induction n as [|n IH]; intros i acc st H; [reflexivity|].
  cbn [for_loop]. unfold bind.
  rewrite (H i acc st) by lia.
  destruct (body' i acc st) as [a s| |]; try reflexivity.
  apply IH. intros k a' s' Hk. apply H. lia.
Qed.

Section Agree.

Variables arr arr' : VariableArray.
Hypothesis Hagree : agree arr arr'.

Lemma later_match_agree (sensName sensLoc : string) :
  forall n j : nat,
    (j + n <= count arr)%nat ->
    later_match arr sensName sensLoc n j
    = later_match arr' sensName sensLoc n j.
Proof.
  destruct Hagree as [_ Hv].
  induction n as [|n IH]; intros j Hj; [reflexivity|].
  cbn [later_match]. rewrite (Hv j) by lia.
  destruct (variable_at arr' j) as [v|]; [|reflexivity].
  destruct (_ && _); [reflexivity|]. apply IH. lia.
Qed.

Lemma isLastVarFromSensor_agree (i : nat) :
  (i < count arr)%nat ->
  isLastVarFromSensor arr i = isLastVarFromSensor arr' i.
Proof.
  intros Hi. unfold isLastVarFromSensor.
  destruct Hagree as [Hc Hv]. rewrite (Hv i Hi), <- Hc.
  destruct (variable_at arr' i) as [v|]; [|reflexivity].
  cbv zeta. apply later_match_agree. lia.
Qed.

Lemma count_sensors_agree :
  forall (n i : nat) (numSensors : Z),
    (i + n <= count arr)%nat ->
    count_sensors arr n i numSensors = count_sensors arr' n i numSensors.
Proof.
  induction n as [|n IH]; intros i acc Hi; [reflexivity|].
  cbn [count_sensors]. rewrite isLastVarFromSensor_agree by lia.
  destruct (isLastVarFromSensor arr' i) as [[|]|];
    try reflexivity; apply IH; lia.
Qed.

Lemma setup_while_agree (i : nat) :
  (i < count arr)%nat ->
  forall (fuel : nat) (sensorSuccess : bool) (setupTries : nat) (st : State),
    setup_while arr i fuel sensorSuccess setupTries st
    = setup_while arr' i fuel sensorSuccess setupTries st.
Proof.
  intros Hi. destruct Hagree as [_ Hv].
  induction fuel as [|fuel IH]; intros ss tries st; [reflexivity|].
  cbn [setup_while]. destruct (tries <? 5)%nat; [|reflexivity].
  unfold bind at 1 3. rewrite (Hv i Hi).
  destruct (lift (variable_at arr' i) st) as [v s| |]; try reflexivity.
  unfold bind.
  destruct (sensor_do OpSetup (parentSensor v) s) as [ok s'| |];
    try reflexivity.
  destruct ok; [reflexivity | apply IH].
Qed.

Lemma setup_pass_body_agree (i : nat) (acc : bool * bool * nat) (st : State) :
  (i < count arr)%nat ->
  setup_pass_body arr i acc st = setup_pass_body arr' i acc st.
Proof.
  intros Hi. destruct acc as [[success ss] tries].
  unfold setup_pass_body, bind.
  rewrite (setup_while_agree i Hi).
  destruct Hagree as [_ Hv]. rewrite (Hv i Hi). reflexivity.
Qed.

Lemma attach_pass_body_agree (i : nat) (success : bool) (st : State) :
  (i < count arr)%nat ->
  attach_pass_body arr i success st = attach_pass_body arr' i success st.
Proof.
  intros Hi. unfold attach_pass_body, bind.
  destruct Hagree as [_ Hv]. rewrite (Hv i Hi). reflexivity.
Qed.

Lemma canonical_and_body_agree (op : SensorOp) (i : nat) (success : bool)
      (st : State) :
  (i < count arr)%nat ->
  canonical_and_body arr op i success st
  = canonical_and_body arr' op i success st.
Proof.
  intros Hi. unfold canonical_and_body, bind.
  rewrite (isLastVarFromSensor_agree i Hi).
  destruct Hagree as [_ Hv]. rewrite (Hv i Hi). reflexivity.
Qed.

Lemma update_body_agree (i : nat) (update_success : bool) (st : State) :
  (i < count arr)%nat ->
  update_body arr i update_success st = update_body arr' i update_success st.
Proof.
  intros Hi. unfold update_body, bind.
  rewrite (isLastVarFromSensor_agree i Hi).
  destruct Hagree as [_ Hv]. rewrite (Hv i Hi). reflexivity.
Qed.

Lemma csv_loop_agree (w : World) :
  forall (n i : nat) (csvString : string),
    (i + n <= count arr)%nat ->
    csv_loop arr w n i csvString = csv_loop arr' w n i csvString.
Proof.
  destruct Hagree as [Hc Hv].
  induction n as [|n IH]; intros i csv Hi; [reflexivity|].
  cbn [csv_loop]. rewrite (Hv i) by lia. rewrite <- Hc.
  destruct (variable_at arr' i) as [v|]; [|reflexivity].
  apply IH. lia.
Qed.

(** Arrays that agree below their count cannot be told apart. *)
Lemma agree_operations :
  getSensorCount arr = getSensorCount arr'
  /\ (forall st, setupSensors arr st = setupSensors arr' st)
  /\ (forall st, sensorsSleep arr st = sensorsSleep arr' st)
  /\ (forall st, sensorsWake arr st = sensorsWake arr' st)
  /\ (forall st, updateAllSensors arr st = updateAllSensors arr' st)
  /\ (forall w, generateSensorDataCSV arr w = generateSensorDataCSV arr' w).
Proof.
  pose proof Hagree as [Hc _].
  repeat split.
  - unfold getSensorCount. cbv zeta. rewrite <- Hc.
    apply count_sensors_agree. lia.
  - intros st. unfold setupSensors. cbv zeta. rewrite <- Hc. unfold bind.
    rewrite (for_loop_ext _ (setup_pass_body arr) (setup_pass_body arr'))
      by (intros; apply setup_pass_body_agree; lia).
    destruct (for_loop _ _ (setup_pass_body arr') _ st)
      as [[[success ss] tries] s| |]; try reflexivity.
    rewrite (for_loop_ext _ (attach_pass_body arr) (attach_pass_body arr'))
      by (intros; apply attach_pass_body_agree; lia).
    reflexivity.
  - intros st. unfold sensorsSleep. cbv zeta. rewrite <- Hc.
    apply for_loop_ext. intros. apply canonical_and_body_agree. lia.
  - intros st. unfold sensorsWake. cbv zeta. rewrite <- Hc.
    apply for_loop_ext. intros. apply canonical_and_body_agree. lia.
  - intros st. unfold updateAllSensors. cbv zeta. rewrite <- Hc. unfold bind.
    rewrite (for_loop_ext _ (update_body arr) (update_body arr'))
      by (intros; apply update_body_agree; lia).
    reflexivity.
  - intros w. unfold generateSensorDataCSV. rewrite <- Hc.
    apply csv_loop_agree. lia.
Qed.

End Agree.

Lemma to_uint8_range (z : Z) : 0 <= to_uint8 z < 256.
Proof. unfold to_uint8. apply Z.mod_pos_bound. lia. Qed.

Lemma to_uint8_idem (z : Z) : to_uint8 (to_uint8 z) = to_uint8 z.
Proof. unfold to_uint8. apply Z.mod_mod. lia. Qed.

End Proofs.

(* ===================================================================== *)
(** * Concrete runs *)
(* ===================================================================== *)

Section Runs.

Import Bench.

(** C2 (defect in the code). [setupTries] is declared before the loop over
    the handles and never reset, so the five attempts are a budget of the
    whole array, not of each handle.  After a sensor that never answers has
    used the five attempts, the healthy sensor behind it is not called at
    all and is reported as failed, although its first setup call would
    succeed; and a sensor that answers on its fifth attempt when alone is
    reported as failed behind a sensor that has used one attempt. *)
Theorem setupSensors_budget_is_shared :
  (exists st' : State,
      setupSensors dead_then_board start = Ok false st'
      /\ setup_calls (trace st') = repeat (dead, false) 5
      /\ failure_reports (trace st') = [vdead; v3]
      /\ attach_calls (trace st') = [(vdead, true); (v3, true)]
      /\ fst (attempts 5 board (world st')) = [true])
  /\ (exists st' : State,
         setupSensors only_slow4 start = Ok true st'
         /\ setup_calls (trace st')
            = repeat (slow4, false) 4 ++ [(slow4, true)]
         /\ failure_reports (trace st') = [])
  /\ (exists st' : State,
         setupSensors slow1_then_slow4 start = Ok false st'
         /\ setup_calls (trace st')
            = [(slow1, false); (slow1, true)] ++ repeat (slow4, false) 4
         /\ failure_reports (trace st') = [vslow4]).
Proof.
  split; [|split]; eexists; (split; [vm_compute; reflexivity|]);
    repeat split.
Qed.

(** C3, refuted as stated: on the array of three variables, of which the
    first two share a sensor, there are two distinct (name, location)
    pairs, no setup call fails, and yet the run does not make two setup
    calls (it makes three). *)
Lemma setupSensors_dedup_counterexample :
  List.length (distinct_sensors (_variableList three)) = 2%nat
  /\ ~ (exists (b : bool) (st' : State),
           setupSensors three start = Ok b st'
           /\ forallb snd (setup_calls (trace st')) = true
           /\ List.length (setup_calls (trace st')) = 2%nat
           /\ List.length (attach_calls (trace st')) = 3%nat).
Proof.
  split; [reflexivity|].
  intros (b & st' & Hrun & _ & Hlen & _).
  vm_compute in Hrun. inversion Hrun; subst. vm_compute in Hlen.
  discriminate.
Qed.

(** C6, refuted as stated: a sensor whose first setup attempt fails and
    whose second succeeds makes [setupSensors] return true, although not
    every setup attempt succeeded. *)
Lemma setupSensors_aggregation_counterexample :
  ~ (forall (b : bool) (st' : State),
        setupSensors only_slow1 start = Ok b st' ->
        (b = true <->
         forallb snd (setup_calls (trace st')) = true
         /\ forallb snd (attach_calls (trace st')) = true)).
Proof.
  intros H.
  assert (E : exists st' : State,
             setupSensors only_slow1 start = Ok true st'
             /\ forallb snd (setup_calls (trace st')) = false).
  { eexists. split; [vm_compute; reflexivity | reflexivity]. }
  destruct E as (st' & Hrun & Hfail).
  destruct (H true st' Hrun) as [Htrue _].
  destruct (Htrue eq_refl) as [Hall _].
  congruence.
Qed.

End Runs.

(* ===================================================================== *)
(** * The logger clock *)
(* ===================================================================== *)

(** C9. [EPOCH_TIME_OFF] is 946684800, the number of seconds from
    1970-01-01 00:00:00 to 2000-01-01 00:00:00.  For a positive interval in
    minutes, [checkInterval] (respectively [checkMarkedInterval]) is true
    if and only if the current (respectively marked) epoch time is a
    multiple of the interval in seconds, or the current epoch time lies in
    the first 15 minutes after logging started; the current epoch time is
    the clock's count with the year-2000 offset, the time zone and the
    clock offset applied. *)
Theorem checkInterval_contract
        (rtcSeconds timeZone offset loggingStart intervalMinutes : Z)
        (markedEpochTime : Z) :
  0 < intervalMinutes ->
  let now := Logger.getNowEpoch rtcSeconds timeZone offset in
  Logger.EPOCH_TIME_OFF = 946684800
  /\ Logger.EPOCH_TIME_OFF
     = Logger.seconds_per_day * Logger.days_of_years 1970 30
  /\ now = (rtcSeconds + Logger.EPOCH_TIME_OFF
            + 3600 * timeZone + 3600 * offset) mod 2 ^ 32
  /\ (Logger.checkInterval rtcSeconds timeZone offset
                           loggingStart intervalMinutes = true
      <-> now mod (intervalMinutes * 60) = 0
          \/ loggingStart <= now < loggingStart + 15 * 60)
  /\ (Logger.checkMarkedInterval markedEpochTime rtcSeconds timeZone offset
                                 loggingStart intervalMinutes = true
      <-> markedEpochTime mod (intervalMinutes * 60) = 0
          \/ loggingStart <= now < loggingStart + 15 * 60).
Proof.
  intros Hpos now.
  assert (Htest : forall tested,
             Logger.interval_test tested now loggingStart intervalMinutes = true
             <-> tested mod (intervalMinutes * 60) = 0
                 \/ loggingStart <= now < loggingStart + 15 * 60).
  { intros tested. unfold Logger.interval_test.
    rewrite orb_true_iff, andb_true_iff, Z.eqb_eq, Z.leb_le, Z.ltb_lt.
    split; (intros [H|H]; [left; exact H | right; lia]). }
  split; [reflexivity|]. split; [reflexivity|]. split; [reflexivity|].
  split; apply Htest.
Qed.

(* ===================================================================== *)
(** * The theorems at concrete arrays *)
(* ===================================================================== *)

Section Instances.

Import Bench.

(** The first of three variables is not canonical (the second shares its
    sensor); the indices are in range. *)
Lemma isLastVarFromSensor_contract_witness :
  well_formed three /\ (0 < count three)%nat
  /\ exists b : bool,
      isLastVarFromSensor three 0 = Some b
      /\ (b = true <->
          forall j : nat, (0 < j < count three)%nat ->
                          key_at three j <> key_at three 0)
      /\ (1%nat = count three -> b = true).
Proof.
  split; [split; [reflexivity | vm_compute; lia]|].
  split; [vm_compute; lia|].
  apply (isLastVarFromSensor_contract three 0).
  - split; [reflexivity | vm_compute; lia].
  - vm_compute; lia.
Defined.

(** Two distinct sensors behind three variables: the count is 3. *)
Lemma getSensorCount_bias_witness :
  well_formed three /\ getSensorCount three = Some 3.
Proof.
  split; [split; [reflexivity | vm_compute; lia]|].
  destruct (getSensorCount_bias three) as (_ & _ & _ & _ & H & _).
  - split; [reflexivity | vm_compute; lia].
  - exact H.
Defined.

(** Sleep and wake touch the two sensors once each. *)
Lemma sensorsSleep_sensorsWake_conjunction_witness :
  well_formed three
  /\ sensorsSleep three start
     = Ok true (mkState [2; 1]%nat
                        [EvSensor OpSleep probe true;
                         EvSensor OpSleep board true])
  /\ sensorsWake three start
     = Ok true (mkState [2; 1]%nat
                        [EvSensor OpWake probe true;
                         EvSensor OpWake board true]).
Proof.
  split; [split; [reflexivity | vm_compute; lia]|].
  destruct (sensorsSleep_sensorsWake_conjunction three start)
    as (Hs & Hw & _).
  - split; [reflexivity | vm_compute; lia].
  - split; [exact Hs | exact Hw].
Defined.

(** The failed update of the first sensor is lost. *)
Lemma updateAllSensors_last_result_witness :
  well_formed flaky_then_board
  /\ updateAllSensors flaky_then_board start
     = Ok true (mkState [2; 6]%nat
                        [EvSensor OpUpdate flaky false;
                         EvSensor OpUpdate board true]).
Proof.
  split; [split; [reflexivity | vm_compute; lia]|].
  destruct (updateAllSensors_last_result flaky_then_board start)
    as (Hu & _).
  - split; [reflexivity | vm_compute; lia].
  - exact Hu.
Defined.

(** The three values in array order. *)
Lemma generateSensorDataCSV_shape_witness :
  well_formed three /\ generateSensorDataCSV three [] = Some "v1, v2, v3"%string.
Proof.
  split; [split; [reflexivity | vm_compute; lia]|].
  destruct (generateSensorDataCSV_shape three []) as (H & _).
  - split; [reflexivity | vm_compute; lia].
  - exact H.
Defined.

(** One handle whose sensor answers at the second attempt. *)
Lemma setupSensors_aggregation_witness :
  well_formed only_slow1
  /\ exists (b : bool) (st' : State) (setup_evs attach_evs : list Event),
      setupSensors only_slow1 start = Ok b st'
      /\ trace st' = trace start ++ setup_evs ++ attach_evs
      /\ attach_calls setup_evs = []
      /\ attach_evs
         = map (fun p => EvAttach (fst p) (snd p)) (attach_calls attach_evs)
      /\ map fst (attach_calls attach_evs) = _variableList only_slow1
      /\ (b = true <->
          failure_reports setup_evs = []
          /\ forallb snd (attach_calls attach_evs) = true).
Proof.
  split; [split; [reflexivity | vm_compute; lia]|].
  apply (setupSensors_aggregation only_slow1 start).
  split; [reflexivity | vm_compute; lia].
Defined.

(** Three handles, three setup calls. *)
Lemma setupSensors_once_per_handle_witness :
  well_formed three
  /\ exists (b : bool) (st' : State) (evs : list Event),
      setupSensors three start = Ok b st'
      /\ trace st' = trace start ++ evs
      /\ map fst (attach_calls evs) = _variableList three
      /\ (forallb snd (setup_calls evs) = true ->
          setup_calls evs
          = map (fun v => (parentSensor v, true)) (_variableList three)
          /\ List.length (setup_calls evs) = List.length (_variableList three)).
Proof.
  split; [split; [reflexivity | vm_compute; lia]|].
  apply (setupSensors_once_per_handle three start).
  split; [reflexivity | vm_compute; lia].
Defined.

(** An array declared with 258 variables keeps the first two. *)
Example init_258_keeps_2 :
  getVariableCount (init 258 crowd) = 2
  /\ generateSensorDataCSV (init 258 crowd) [] = Some "v1, v2"%string
  /\ getSensorCount (init 258 crowd) = Some 2.
Proof. repeat split. Qed.

End Instances.

(** A 15-minute interval. *)
Lemma checkInterval_contract_witness :
  0 < 15
  /\ Logger.checkInterval 900 0 0 0 15 = true
  /\ Logger.checkMarkedInterval 946685700 900 0 0 0 15 = true
  /\ Logger.checkMarkedInterval 946685220 420 0 0 0 15 = false.
Proof.
  split; [lia|].
  destruct (checkInterval_contract 900 0 0 0 15 946685700) as (_ & _ & _ & H1 & H2).
  - lia.
  - split; [|split].
    + apply H1. left. reflexivity.
    + apply H2. left. reflexivity.
    + reflexivity.
Defined.

(* ===================================================================== *)
(** * Further properties of the variable array *)
(* ===================================================================== *)

Section MoreProofs.

Context {P : Platform}.

Lemma string_app_nil_r (a : string) : (a ++ "")%string = a.
Proof.
  induction a as [|ch a IH]; [reflexivity|].
  cbn [append]. rewrite IH. reflexivity.
Qed.

(* --------------------------------------------------------------------- *)
(** ** printSensorData *)

Lemma print_line_append {PP : PrintPlatform P}
      (v : Var) (w : World) (stream : string) :
  print_line v w stream = (stream ++ sensor_data_line w v)%string.
Proof.
  unfold print_line, sensor_data_line. cbv zeta.
  rewrite !string_app_assoc. reflexivity.
Qed.

Lemma print_loop_suffix {PP : PrintPlatform P}
      (arr : VariableArray) (w : World) :
  forall (suf pre : list Var) (stream : string),
    _variableList arr = pre ++ suf ->
    print_loop arr w (List.length suf) (List.length pre) stream
    = Some (stream
            ++ fold_right append EmptyString
                          (map (sensor_data_line w) suf))%string.
Proof.
  induction suf as [|v suf IH]; intros pre stream Hl.
  - cbn. rewrite string_app_nil_r. reflexivity.
  - cbn [List.length print_loop map fold_right].
    rewrite (variable_at_middle arr pre suf v Hl).
    specialize (IH (pre ++ [v])). rewrite length_snoc in IH.
    rewrite IH by (rewrite Hl; apply snoc_middle).
    rewrite print_line_append, string_app_assoc. reflexivity.
Qed.

(** X1. On a well-formed array, [printSensorData] appends to the stream
    one line per handle, duplicates of a sensor included, in array order,
    and nothing else; it leaves what the stream already held, and prints
    nothing for the empty array. *)
Theorem printSensorData_lines {PP : PrintPlatform P}
        (arr : VariableArray) (w : World) (stream : string) :
  well_formed arr ->
  printSensorData arr w stream
  = Some (stream
          ++ fold_right append EmptyString
                        (map (sensor_data_line w) (_variableList arr)))%string
  /\ (_variableList arr = [] -> printSensorData arr w stream = Some stream).
Proof.
  intros Hwf. pose proof (count_well_formed arr Hwf) as Hc.
  assert (Hp : printSensorData arr w stream
               = Some (stream
                       ++ fold_right append EmptyString
                            (map (sensor_data_line w)
                                 (_variableList arr)))%string).
  { unfold printSensorData. rewrite Hc.
    pose proof (print_loop_suffix arr w (_variableList arr) [] stream eq_refl)
      as H.
    cbn [List.length] in H. exact H. }
  split; [exact Hp|].
  intros Hnil. rewrite Hp, Hnil. cbn. rewrite string_app_nil_r. reflexivity.
Qed.

(* --------------------------------------------------------------------- *)
(** ** Bounds of the sensor count *)

Lemma canonical_length_le (vl : list Var) :
  (List.length (canonical vl) <= List.length vl)%nat.
Proof.
  induction vl as [|v vl IH]; [apply le_n|].
  cbn [canonical]. destruct (existsb (same_sensor v) vl); cbn [List.length]; lia.
Qed.

(** The last handle of a list is canonical. *)
Lemma canonical_snoc (pre : list Var) (v : Var) :
  exists c : list Var, canonical (pre ++ [v]) = c ++ [v].
Proof.
  induction pre as [|u pre (c & IH)].
  - exists []. reflexivity.
  - cbn [app canonical]. rewrite IH.
    destruct (existsb (same_sensor u) (pre ++ [v])).
    + exists c. reflexivity.
    + exists (u :: c). reflexivity.
Qed.

Lemma canonical_nonempty (vl : list Var) :
  vl <> [] -> (1 <= List.length (canonical vl))%nat.
Proof.
  intros Hne.
  destruct (exists_last Hne) as (pre & v & ->).
  destruct (canonical_snoc pre v) as (c & ->).
  rewrite length_app. cbn. lia.
Qed.

Lemma canonical_all_distinct (vl : list Var) :
  NoDup (map sensor_key vl) -> canonical vl = vl.
Proof.
  induction vl as [|v vl IH]; intros Hnd; [reflexivity|].
  cbn [map] in Hnd. inversion Hnd as [|k ks Hnin Hnd']; subst.
  cbn [canonical].
  destruct (existsb (same_sensor v) vl) eqn:E.
  - apply existsb_same_sensor_In in E. contradiction.
  - f_equal. apply IH. exact Hnd'.
Qed.

(** X2. On a well-formed array, [getSensorCount] returns a number between
    1 and the variable count plus 1; it is at least 2 as soon as there is
    a handle, and it is the variable count plus 1 when all handles have
    different (name, location) pairs. *)
Theorem getSensorCount_bounds (arr : VariableArray) :
  well_formed arr ->
  exists n : Z,
    getSensorCount arr = Some n
    /\ 1 <= n <= getVariableCount arr + 1
    /\ (_variableList arr <> [] -> 2 <= n)
    /\ (NoDup (map sensor_key (_variableList arr)) ->
        n = getVariableCount arr + 1).
Proof.
  intros Hwf. pose proof (count_well_formed arr Hwf) as Hc.
  exists (1 + Z.of_nat (List.length (canonical (_variableList arr)))).
  assert (Hv : getVariableCount arr
               = Z.of_nat (List.length (_variableList arr)))
    by (destruct Hwf as [H _]; exact H).
  split; [|split; [|split]].
  - unfold getSensorCount. cbv zeta. rewrite Hc.
    apply (count_sensors_suffix arr (_variableList arr) []);
      [reflexivity | exact Hc].
  - pose proof (canonical_length_le (_variableList arr)). lia.
  - intros Hne. pose proof (canonical_nonempty _ Hne). lia.
  - intros Hnd. rewrite (canonical_all_distinct _ Hnd). lia.
Qed.

(* --------------------------------------------------------------------- *)
(** ** Which sensors the passes over the canonical indices call *)

Lemma replay_app (op : SensorOp) (l1 l2 : list Sensor) :
  forall w : World,
    replay op (l1 ++ l2) w
    = (fst (replay op l1 w) ++ fst (replay op l2 (snd (replay op l1 w))),
       snd (replay op l2 (snd (replay op l1 w)))).
Proof.
  induction l1 as [|s l1 IH]; intros w.
  - cbn. destruct (replay op l2 w). reflexivity.
  - cbn [app]. rewrite !replay_cons, IH. reflexivity.
Qed.

Lemma replay_only_calls (op : SensorOp) (ss : list Sensor) :
  forall w : World, Forall (is_call_of op) (fst (replay op ss w)).
Proof.
  induction ss as [|s ss IH]; intros w.
  - constructor.
  - rewrite replay_cons. cbn [fst]. constructor; [|apply IH].
    eexists _, _. reflexivity.
Qed.

Lemma replay_called_keys (op : SensorOp) (vs : list Var) :
  forall w : World,
    called_keys (fst (replay op (map parentSensor vs) w)) = map sensor_key vs.
Proof.
  induction vs as [|v vs IH]; intros w; [reflexivity|].
  cbn [map]. rewrite replay_cons. cbn [fst].
  unfold called_keys in *. cbn [flat_map app]. rewrite IH. reflexivity.
Qed.

Lemma distinct_sensors_once (vl : list Var) (v : Var) :
  In v vl ->
  count_occ key_eq_dec (distinct_sensors vl) (sensor_key v) = 1%nat.
Proof.
  intros Hin. unfold distinct_sensors.
  apply NoDup_count_occ'.
  - apply NoDup_nodup.
  - apply nodup_In. apply in_map. exact Hin.
Qed.

Lemma canonical_pass_keys (arr : VariableArray) (op : SensorOp) (st : State) :
  well_formed arr ->
  exists (b : bool) (st' : State) (evs : list Event),
    for_loop (count arr) 0 (canonical_and_body arr op) true st = Ok b st'
    /\ trace st' = trace st ++ evs
    /\ Forall (is_call_of op) evs
    /\ called_keys evs = distinct_sensors (_variableList arr).
Proof.
  intros Hwf. pose proof (count_well_formed arr Hwf) as Hc.
  pose proof (canonical_and_loop arr op (_variableList arr) [] true st
                eq_refl Hc) as H.
  cbn [List.length] in H. cbv zeta in H. rewrite Hc.
  eexists _, _, _. split; [exact H|]. cbn [trace].
  split; [reflexivity|]. split.
  - apply replay_only_calls.
  - rewrite replay_called_keys. apply canonical_distinct.
Qed.

(** X3. On a well-formed array, what [sensorsSleep] (respectively
    [sensorsWake]) adds to the trace are sleep (respectively wake) calls
    only, and for every handle exactly one of them goes to a sensor with
    that handle's (name, location) pair. *)
Theorem sensorsSleep_sensorsWake_once_per_pair
        (arr : VariableArray) (st : State) :
  well_formed arr ->
  (exists (b : bool) (st' : State) (evs : list Event),
      sensorsSleep arr st = Ok b st'
      /\ trace st' = trace st ++ evs
      /\ Forall (is_call_of OpSleep) evs
      /\ forall v : Var,
          In v (_variableList arr) ->
          count_occ key_eq_dec (called_keys evs) (sensor_key v) = 1%nat)
  /\ (exists (b : bool) (st' : State) (evs : list Event),
         sensorsWake arr st = Ok b st'
         /\ trace st' = trace st ++ evs
         /\ Forall (is_call_of OpWake) evs
         /\ forall v : Var,
             In v (_variableList arr) ->
             count_occ key_eq_dec (called_keys evs) (sensor_key v) = 1%nat).
Proof.
  intros Hwf. split.
  - destruct (canonical_pass_keys arr OpSleep st Hwf)
      as (b & st' & evs & Hrun & Htr & Hall & Hkeys).
    exists b, st', evs. repeat split; try assumption.
    intros v Hin. rewrite Hkeys. apply distinct_sensors_once. exact Hin.
  - destruct (canonical_pass_keys arr OpWake st Hwf)
      as (b & st' & evs & Hrun & Htr & Hall & Hkeys).
    exists b, st', evs. repeat split; try assumption.
    intros v Hin. rewrite Hkeys. apply distinct_sensors_once. exact Hin.
Qed.

(** X4. On a well-formed array, what [updateAllSensors] adds to the trace
    are update calls only, and for every handle exactly one of them goes
    to a sensor with that handle's (name, location) pair. *)
Theorem updateAllSensors_once_per_pair (arr : VariableArray) (st : State) :
  well_formed arr ->
  exists (b : bool) (st' : State) (evs : list Event),
    updateAllSensors arr st = Ok b st'
    /\ trace st' = trace st ++ evs
    /\ Forall (is_call_of OpUpdate) evs
    /\ forall v : Var,
        In v (_variableList arr) ->
        count_occ key_eq_dec (called_keys evs) (sensor_key v) = 1%nat.
Proof.
  intros Hwf. pose proof (count_well_formed arr Hwf) as Hc.
  pose proof (update_loop arr (_variableList arr) [] true st eq_refl Hc) as H.
  cbn [List.length] in H. cbv zeta in H.
  eexists _, _, _. split.
  - unfold updateAllSensors. cbv zeta. unfold bind. rewrite Hc, H.
    unfold ret. reflexivity.
  - cbn [trace]. split; [reflexivity|]. split.
    + apply replay_only_calls.
    + intros v Hin. rewrite replay_called_keys, canonical_distinct.
      apply distinct_sensors_once. exact Hin.
Qed.

(** X5. On a well-formed array, the last call of [updateAllSensors] is the
    update of the parent sensor of the last variable of the array, and the
    returned status is the result of that call: the sensors of all other
    variables have no influence on it. *)
Theorem updateAllSensors_last_variable
        (arr : VariableArray) (st : State) (pre : list Var) (v : Var) :
  well_formed arr ->
  _variableList arr = pre ++ [v] ->
  exists (ok : bool) (st' : State) (evs : list Event),
    updateAllSensors arr st = Ok ok st'
    /\ trace st' = trace st ++ evs ++ [EvSensor OpUpdate (parentSensor v) ok]
    /\ Forall (is_call_of OpUpdate) evs.
Proof.
  intros Hwf Hl. pose proof (count_well_formed arr Hwf) as Hc.
  pose proof (update_loop arr (_variableList arr) [] true st eq_refl Hc) as H.
  cbn [List.length] in H. cbv zeta in H.
  destruct (canonical_snoc pre v) as (c & Hcan).
  rewrite Hl, Hcan, map_app, replay_app in H. cbn [fst snd map] in H.
  rewrite replay_cons in H. cbn [fst snd replay] in H.
  rewrite map_app in H. cbn [map ev_ok] in H. rewrite last_last in H.
  eexists _, _, _. split.
  - unfold updateAllSensors. cbv zeta. unfold bind. rewrite Hc, Hl, H.
    unfold ret. cbn [andb]. reflexivity.
  - cbn [trace]. split; [reflexivity|]. apply replay_only_calls.
Qed.

(* --------------------------------------------------------------------- *)
(** ** The retry budget of setupSensors *)

(** What a run of attempts under a budget of [k] looks like; [d] is the
    value [sensorSuccess] had before. *)
Lemma attempts_facts (s : Sensor) :
  forall (k : nat) (w : World) (d : bool),
    let rs := fst (attempts k s w) in
    (List.length (filter negb rs) <= k)%nat
    /\ (List.length (filter (fun ok : bool => ok) rs) <= 1)%nat
    /\ (last rs d = false -> List.length (filter negb rs) = k)
    /\ (List.length (filter negb rs) = k ->
        d = false \/ (0 < k)%nat -> last rs d = false)
    /\ (last rs d = true -> d = false \/ (0 < k)%nat -> In true rs).
Proof.
  induction k as [|k IH]; intros w d; cbv zeta.
  - cbn. split; [lia|]. split; [lia|]. split; [reflexivity|]. split.
    + intros _ [H|H]; [exact H | exfalso; lia].
    + intros H [H'|H']; [congruence | lia].
  - rewrite attempts_succ.
    destruct (fst (Sensor_call OpSetup s w)); cbn [fst].
    + cbn. split; [lia|]. split; [lia|]. split; [discriminate|].
      split; [discriminate|]. intros _ _. left. reflexivity.
    + destruct (IH (snd (Sensor_call OpSetup s w)) false)
        as (H1 & H2 & H3 & H4 & H5).
      rewrite last_cons. cbn [filter negb List.length].
      repeat split.
      * lia.
      * exact H2.
      * intros H. rewrite (H3 H). reflexivity.
      * intros H _. apply H4; [lia | left; reflexivity].
      * intros H _. right. apply H5; [exact H | left; reflexivity].
Qed.

Lemma failed_setups_app (l1 l2 : list Event) :
  failed_setups (l1 ++ l2) = failed_setups l1 ++ failed_setups l2.
Proof. unfold failed_setups. rewrite setup_calls_app. apply filter_app. Qed.

Lemma successful_setups_app (l1 l2 : list Event) :
  successful_setups (l1 ++ l2) = successful_setups l1 ++ successful_setups l2.
Proof.
  unfold successful_setups. rewrite setup_calls_app. apply filter_app.
Qed.

Lemma failed_setups_attempts (s : Sensor) (rs : list bool) :
  List.length (failed_setups (map (EvSensor OpSetup s) rs))
  = List.length (filter negb rs).
Proof.
  unfold failed_setups. rewrite setup_calls_attempts.
  induction rs as [|r rs IH]; [reflexivity|].
  cbn [map filter snd]. destruct r; cbn [negb List.length]; rewrite IH;
    reflexivity.
Qed.

Lemma successful_setups_attempts (s : Sensor) (rs : list bool) :
  List.length (successful_setups (map (EvSensor OpSetup s) rs))
  = List.length (filter (fun ok : bool => ok) rs).
Proof.
  unfold successful_setups. rewrite setup_calls_attempts.
  induction rs as [|r rs IH]; [reflexivity|].
  cbn [map filter snd]. destruct r; cbn [List.length]; rewrite IH;
    reflexivity.
Qed.

Lemma attempts_only_setup (s : Sensor) (rs : list bool) :
  Forall is_setup_event (map (EvSensor OpSetup s) rs).
Proof.
  induction rs as [|r rs IH]; constructor; [exact I | exact IH].
Qed.

(** The first pass of [setupSensors], with its budget.  [setupTries] is
    at most 5 and, once it is 5, [sensorSuccess] is false. *)
Lemma setup_pass_budget (arr : VariableArray) :
  forall (suf pre : list Var) (success sensorSuccess : bool)
         (setupTries : nat) (st : State),
    _variableList arr = pre ++ suf ->
    (setupTries <= 5)%nat ->
    (setupTries = 5%nat -> sensorSuccess = false) ->
    exists (success' ok' : bool) (tries' : nat) (evs : list Event) (w' : World),
      for_loop (List.length suf) (List.length pre) (setup_pass_body arr)
               (success, sensorSuccess, setupTries) st
      = Ok (success', ok', tries') (mkState w' (trace st ++ evs))
      /\ tries' = (setupTries + List.length (failed_setups evs))%nat
      /\ (tries' <= 5)%nat
      /\ (List.length (successful_setups evs) <= List.length suf)%nat
      /\ (failure_reports evs <> [] -> tries' = 5%nat)
      /\ (tries' = 5%nat ->
          failure_reports evs <> [] \/ (suf = [] /\ setupTries = 5%nat))
      /\ (failure_reports evs = [] ->
          forall v : Var,
            In v suf -> In (parentSensor v, true) (setup_calls evs))
      /\ Forall is_setup_event evs.
Proof.
  induction suf as [|v suf IH]; intros pre success ss tries st Hl Hle Hinv.
  - exists success, ss, tries, [], (world st).
    cbn. rewrite app_nil_r, state_eta, Nat.add_0_r.
    split; [reflexivity|]. split; [reflexivity|]. split; [exact Hle|].
    split; [lia|]. split; [intros H; exfalso; apply H; reflexivity|].
    split; [intros E5; right; split; [reflexivity | exact E5]|].
    split; [intros _ v []|constructor].
  - cbn [List.length for_loop]. unfold bind at 1.
    pose proof (variable_at_middle arr pre suf v Hl) as Hv.
    rewrite (setup_pass_body_run arr _ v success ss tries st Hv). cbv zeta.
    destruct (attempts_facts (parentSensor v) (5 - tries) (world st) ss)
      as (F1 & F2 & F3 & F4 & F5).
    assert (Hd : ss = false \/ (0 < 5 - tries)%nat).
    { destruct (Nat.eq_dec tries 5) as [E|E]; [left; auto | right; lia]. }
    set (r := attempts (5 - tries) (parentSensor v) (world st)) in *.
    set (ok := last (fst r) ss) in *.
    set (report := if ok then [] else [EvSetupFailed v]).
    set (tries1 := (tries + List.length (filter negb (fst r)))%nat).
    set (st1 := mkState (snd r) _).
    assert (Hle1 : (tries1 <= 5)%nat) by (subst tries1; lia).
    assert (Hinv1 : tries1 = 5%nat -> ok = false).
    { intros E. apply F4; [subst tries1; lia | exact Hd]. }
    destruct (IH (pre ++ [v]) (success && ok) ok tries1 st1)
      as (success' & ok' & tries' & evs & w' & Hrun
          & Ha & Hb & Hc & Hd' & He & Hf & Hg);
      [rewrite Hl; apply snoc_middle | exact Hle1 | exact Hinv1 |].
    rewrite length_snoc in Hrun.
    exists success', ok', tries',
      (map (EvSensor OpSetup (parentSensor v)) (fst r) ++ report ++ evs), w'.
    assert (Hrep : failure_reports report = if ok then [] else [v])
      by (subst report; destruct ok; reflexivity).
    assert (Hrs : setup_calls report = [])
      by (subst report; destruct ok; reflexivity).
    assert (Hrf : failed_setups report = [])
      by (unfold failed_setups; rewrite Hrs; reflexivity).
    assert (Hrsucc : successful_setups report = [])
      by (unfold successful_setups; rewrite Hrs; reflexivity).
    split; [|split; [|split; [|split; [|split; [|split; [|split]]]]]].
    + rewrite Hrun. subst st1. cbn [trace].
      rewrite <- !app_assoc. reflexivity.
    + rewrite !failed_setups_app, !length_app, failed_setups_attempts, Hrf.
      cbn [List.length]. subst tries1. lia.
    + exact Hb.
    + rewrite !successful_setups_app, !length_app,
        successful_setups_attempts, Hrsucc.
      cbn [List.length]. lia.
    + rewrite !failure_reports_app, failure_reports_attempts, Hrep.
      cbn [app]. intros Hne.
      destruct ok eqn:Eok.
      * apply Hd'. exact Hne.
      * assert (tries1 = 5%nat) by (subst tries1; rewrite (F3 eq_refl); lia).
        lia.
    + rewrite !failure_reports_app, failure_reports_attempts, Hrep.
      cbn [app]. intros E5. left.
      destruct ok eqn:Eok.
      * destruct (He E5) as [Hne | [_ E1]]; [exact Hne|].
        specialize (Hinv1 E1). discriminate.
      * discriminate.
    + rewrite !failure_reports_app, failure_reports_attempts, Hrep.
      cbn [app]. intros Hnil u Hin.
      rewrite !setup_calls_app, setup_calls_attempts, Hrs. cbn [app].
      destruct ok eqn:Eok; [|discriminate].
      apply in_or_app. destruct Hin as [<- | Hin].
      * left. apply in_map. apply F5; [reflexivity | exact Hd].
      * right. apply Hf; assumption.
    + apply Forall_app. split; [apply attempts_only_setup|].
      apply Forall_app. split; [|exact Hg].
      subst report. destruct ok; repeat constructor.
Qed.

Lemma attached_all (l : list (Var * bool)) :
  forallb snd l = true ->
  forall v : Var, In v (map fst l) -> In (v, true) l.
Proof.
  induction l as [|[u ok] l IH]; intros Hall v Hin; [contradiction|].
  cbn [forallb snd] in Hall. apply andb_true_iff in Hall.
  destruct Hall as [-> Hall]. cbn [map fst] in Hin.
  destruct Hin as [<- | Hin]; [left; reflexivity | right; auto].
Qed.

Lemma attach_events_are_setup_events (vs : list Var) (w : World) :
  Forall is_setup_event (fst (attach_all vs w)).
Proof.
  destruct (attach_all_trace vs w) as (_ & H & _). cbv zeta in H.
  rewrite H. apply Forall_forall. intros e Hin.
  apply in_map_iff in Hin. destruct Hin as (p & <- & _). exact I.
Qed.

(** A whole run of [setupSensors], with its budget. *)
Lemma setupSensors_budget_run (arr : VariableArray) (st : State) :
  well_formed arr ->
  exists (b : bool) (st' : State) (evs : list Event),
    setupSensors arr st = Ok b st'
    /\ trace st' = trace st ++ evs
    /\ (List.length (failed_setups evs) <= 5)%nat
    /\ (List.length (successful_setups evs)
        <= List.length (_variableList arr))%nat
    /\ (failure_reports evs <> [] <-> List.length (failed_setups evs) = 5%nat)
    /\ Forall is_setup_event evs
    /\ (b = true ->
        failure_reports evs = []
        /\ forall v : Var,
            In v (_variableList arr) ->
            In (parentSensor v, true) (setup_calls evs)
            /\ In (v, true) (attach_calls evs)).
Proof.
  intros Hwf. pose proof (count_well_formed arr Hwf) as Hc.
  destruct (setup_pass_budget arr (_variableList arr) [] true false 0%nat st
              eq_refl) as (success' & ok' & tries' & evs & w1 & Hrun
                           & Ha & Hb & Hsucc & Hd & He & Hf & Hg);
    [lia | reflexivity |].
  destruct (setup_pass_loop arr (_variableList arr) [] true false 0%nat st
              eq_refl) as (success2 & ok2 & tries2 & evs2 & w2 & Hrun2
                           & Hatt & Hres & _).
  cbn [List.length andb] in Hrun, Hrun2, Hres.
  assert (Esame : success2 = success' /\ evs2 = evs).
  { rewrite Hrun in Hrun2. injection Hrun2 as E1 _ _ _ E2.
    apply app_inv_head in E2. split; congruence. }
  destruct Esame as [-> ->].
  cbn [Nat.add] in Ha.
  destruct (attach_all_trace (_variableList arr) w1)
    as (T1 & T2 & T3 & T4 & T5).
  cbv zeta in T1, T2, T3, T4, T5.
  pose proof (attach_pass_loop arr (_variableList arr) [] success'
                (mkState w1 (trace st ++ evs)) eq_refl) as Hattach.
  cbn [List.length] in Hattach. cbv zeta in Hattach.
  cbn [world trace] in Hattach.
  set (aevs := fst (attach_all (_variableList arr) w1)) in *.
  assert (Afail : failed_setups aevs = [])
    by (unfold failed_setups; rewrite T4; reflexivity).
  assert (Asucc : successful_setups aevs = [])
    by (unfold successful_setups; rewrite T4; reflexivity).
  eexists _, _, (evs ++ aevs). split.
  - unfold setupSensors. cbv zeta. unfold bind at 1.
    rewrite Hc, Hrun. unfold bind at 1. rewrite Hattach. unfold ret.
    reflexivity.
  - cbn [trace]. rewrite <- app_assoc.
    rewrite failed_setups_app, successful_setups_app, failure_reports_app,
      setup_calls_app, attach_calls_app, Afail, Asucc, T4, T5, Hatt,
      !app_nil_r.
    cbn [app].
    split; [reflexivity|]. split; [lia|]. split; [exact Hsucc|].
    split; [|split].
    + split; [intros H; specialize (Hd H); lia|].
      intros E. destruct (He ltac:(lia)) as [H | [_ H]]; [exact H | lia].
    + apply Forall_app. split; [exact Hg|].
      apply attach_events_are_setup_events.
    + intros Eb. apply andb_true_iff in Eb. destruct Eb as [Eb1 Eb2].
      rewrite Hres in Eb1. unfold no_report in Eb1.
      destruct (failure_reports evs) eqn:Erep; [|discriminate].
      split; [reflexivity|]. intros v Hin. split.
      * apply Hf; [reflexivity | exact Hin].
      * apply attached_all; [rewrite <- T3; exact Eb2|].
        rewrite T1. exact Hin.
Qed.

(** X7. On a well-formed array, when [setupSensors] returns true, no
    handle was reported as failed, the parent sensor of every handle
    answered a setup call with success, and every handle was attached
    with success. *)
Theorem setupSensors_true_means_all_set_up
        (arr : VariableArray) (st : State) :
  well_formed arr ->
  exists (b : bool) (st' : State) (evs : list Event),
    setupSensors arr st = Ok b st'
    /\ trace st' = trace st ++ evs
    /\ (b = true ->
        failure_reports evs = []
        /\ forall v : Var,
            In v (_variableList arr) ->
            In (parentSensor v, true) (setup_calls evs)
            /\ In (v, true) (attach_calls evs)).
Proof.
  intros Hwf.
  destruct (setupSensors_budget_run arr st Hwf)
    as (b & st' & evs & H1 & H2 & _ & _ & _ & _ & H7).
  exists b, st', evs. repeat split; try assumption; apply H7; assumption.
Qed.



(* --------------------------------------------------------------------- *)
(** ** Reads within and past the variable list *)

Lemma truncate_agree (arr : VariableArray) : agree arr (truncate arr).
Proof.
  split.
  - unfold truncate, count at 2. cbn [_variableCount].
    rewrite Nat2Z.id. reflexivity.
  - intros i Hi. unfold variable_at, truncate. cbn [_variableList].
    rewrite nth_error_firstn.
    destruct (Nat.ltb_spec i (count arr)); [reflexivity | lia].
Qed.

Lemma truncate_exact (arr : VariableArray) :
  (count arr <= List.length (_variableList arr))%nat ->
  count (truncate arr) = List.length (_variableList (truncate arr)).
Proof.
  intros Hle. destruct (truncate_agree arr) as [<- _].
  unfold truncate. cbn [_variableList].
  rewrite length_firstn. lia.
Qed.

(** X9. Whatever the list holds beyond the count (and whatever the count
    is), as long as the stored count does not exceed the length of the
    list, every operation returns: none reads past the end of the list,
    and the retry loop of the setup ends. *)
Theorem operations_within_bounds (arr : VariableArray) :
  (count arr <= List.length (_variableList arr))%nat ->
  (exists n : Z, getSensorCount arr = Some n)
  /\ (forall w, exists csv : string, generateSensorDataCSV arr w = Some csv)
  /\ (forall st, exists b st', setupSensors arr st = Ok b st')
  /\ (forall st, exists b st', sensorsSleep arr st = Ok b st')
  /\ (forall st, exists b st', sensorsWake arr st = Ok b st')
  /\ (forall st, exists b st', updateAllSensors arr st = Ok b st').
Proof.
  intros Hle.
  destruct (agree_operations arr (truncate arr) (truncate_agree arr))
    as (E1 & E2 & E3 & E4 & E5 & E6).
  pose proof (truncate_exact arr Hle) as Hc.
  set (arr' := truncate arr) in *.
  assert (Hl : _variableList arr' = [] ++ _variableList arr') by reflexivity.
  split; [|split; [|split; [|split; [|split]]]].
  - rewrite E1. unfold getSensorCount. cbv zeta. rewrite Hc.
    eexists. apply (count_sensors_suffix arr' (_variableList arr') []);
      [exact Hl | exact Hc].
  - intros w. rewrite E6. unfold generateSensorDataCSV. rewrite Hc.
    eexists. apply (csv_loop_suffix arr' w (_variableList arr') []);
      [exact Hl | exact Hc].
  - intros st. rewrite E2.
    destruct (setup_pass_loop arr' (_variableList arr') [] true false 0%nat
                st Hl)
      as (success' & ok' & tries' & evs & w1 & Hrun & _).
    cbn [List.length] in Hrun.
    pose proof (attach_pass_loop arr' (_variableList arr') [] success'
                  (mkState w1 (trace st ++ evs)) Hl) as Hattach.
    cbn [List.length] in Hattach. cbv zeta in Hattach.
    unfold setupSensors. cbv zeta. unfold bind at 1.
    rewrite Hc, Hrun. unfold bind at 1. rewrite Hattach. unfold ret.
    eexists _, _. reflexivity.
  - intros st. rewrite E3. unfold sensorsSleep. cbv zeta. rewrite Hc.
    pose proof (canonical_and_loop arr' OpSleep (_variableList arr') [] true
                  st Hl Hc) as H.
    cbn [List.length] in H. rewrite H. eexists _, _. reflexivity.
  - intros st. rewrite E4. unfold sensorsWake. cbv zeta. rewrite Hc.
    pose proof (canonical_and_loop arr' OpWake (_variableList arr') [] true
                  st Hl Hc) as H.
    cbn [List.length] in H. rewrite H. eexists _, _. reflexivity.
  - intros st. rewrite E5. unfold updateAllSensors. cbv zeta.
    unfold bind. rewrite Hc.
    pose proof (update_loop arr' (_variableList arr') [] true st Hl Hc) as H.
    cbn [List.length] in H. rewrite H. eexists _, _. reflexivity.
Qed.

Lemma for_loop_undefined (A : Type) (body : nat -> A -> M A) (bad : nat) :
  (forall k a s, body k a s <> OutOfFuel) ->
  (forall a s, body bad a s = Undefined) ->
  forall (n i : nat) (acc : A) (st : State),
    (i <= bad < i + n)%nat ->
    for_loop n i body acc st = Undefined.
Proof.
  intros Hfuel Hbad. induction n as [|n IH]; intros i acc st Hi; [lia|].
  cbn [for_loop]. unfold bind.
  destruct (body i acc st) as [a s| |] eqn:E.
  - destruct (Nat.eq_dec i bad) as [->|Hne].
    + rewrite Hbad in E. discriminate.
    + apply IH. lia.
  - reflexivity.
  - exfalso. exact (Hfuel i acc st E).
Qed.

Lemma for_loop_no_fuel (A : Type) (body : nat -> A -> M A) :
  (forall k a s, body k a s <> OutOfFuel) ->
  forall (n i : nat) (acc : A) (st : State),
    for_loop n i body acc st <> OutOfFuel.
Proof.
  intros Hfuel. induction n as [|n IH]; intros i acc st; [discriminate|].
  cbn [for_loop]. unfold bind.
  destruct (body i acc st) as [a s| |] eqn:E.
  - apply IH.
  - discriminate.
  - exfalso. exact (Hfuel i acc st E).
Qed.

Lemma setup_while_no_fuel (arr : VariableArray) (i : nat) :
  forall (fuel setupTries : nat) (sensorSuccess : bool) (st : State),
    (5 - setupTries <= fuel)%nat ->
    setup_while arr i fuel sensorSuccess setupTries st <> OutOfFuel.
Proof.
  induction fuel as [|fuel IH]; intros tries ss st Hf.
  - cbn [setup_while].
    assert (E : (tries <? 5)%nat = false) by (apply Nat.ltb_ge; lia).
    rewrite E. discriminate.
  - cbn [setup_while]. destruct (tries <? 5)%nat eqn:E; [|discriminate].
    apply Nat.ltb_lt in E. unfold bind at 1. unfold lift at 1.
    destruct (variable_at arr i) as [v|]; [|discriminate].
    unfold bind at 1. rewrite sensor_do_run.
    destruct (fst (Sensor_call OpSetup (parentSensor v) (world st)));
      [discriminate|].
    apply IH. lia.
Qed.

Lemma setup_pass_body_no_fuel (arr : VariableArray) (i : nat)
      (acc : bool * bool * nat) (st : State) :
  setup_pass_body arr i acc st <> OutOfFuel.
Proof.
  destruct acc as [[success ss] tries]. unfold setup_pass_body.
  unfold bind at 1.
  pose proof (setup_while_no_fuel arr i 5 tries ss st ltac:(lia)) as H.
  destruct (setup_while arr i 5 ss tries st) as [[ok tries'] s| |];
    [|discriminate|contradiction].
  unfold bind, lift, emit, ret.
  destruct ok; cbn [negb]; [discriminate|].
  destruct (variable_at arr i); discriminate.
Qed.

Lemma canonical_and_body_no_fuel (arr : VariableArray) (op : SensorOp)
      (i : nat) (success : bool) (st : State) :
  canonical_and_body arr op i success st <> OutOfFuel.
Proof.
  unfold canonical_and_body, bind, lift, ret.
  destruct (isLastVarFromSensor arr i) as [[|]|]; try discriminate.
  destruct (variable_at arr i); [|discriminate].
  rewrite sensor_do_run. discriminate.
Qed.

Lemma update_body_no_fuel (arr : VariableArray) (i : nat)
      (update_success : bool) (st : State) :
  update_body arr i update_success st <> OutOfFuel.
Proof.
  unfold update_body, bind, lift, ret.
  destruct (isLastVarFromSensor arr i) as [[|]|]; try discriminate.
  destruct (variable_at arr i); [|discriminate].
  rewrite sensor_do_run. discriminate.
Qed.

Lemma attach_pass_body_no_fuel (arr : VariableArray) (i : nat)
      (success : bool) (st : State) :
  attach_pass_body arr i success st <> OutOfFuel.
Proof.
  unfold attach_pass_body, bind, lift, ret.
  destruct (variable_at arr i); [|discriminate].
  rewrite variable_attach_run. discriminate.
Qed.

Section PastTheEnd.

Variable arr : VariableArray.

Local Notation "'bad'" := (List.length (_variableList arr)).

Lemma variable_at_end : variable_at arr bad = None.
Proof. unfold variable_at. apply nth_error_None. apply le_n. Qed.

Lemma isLastVarFromSensor_end : isLastVarFromSensor arr bad = None.
Proof. unfold isLastVarFromSensor. rewrite variable_at_end. reflexivity. Qed.

Lemma count_sensors_past_end :
  forall (n i : nat) (numSensors : Z),
    (i <= bad < i + n)%nat -> count_sensors arr n i numSensors = None.
Proof.
  induction n as [|n IH]; intros i acc Hi; [lia|].
  cbn [count_sensors].
  destruct (Nat.eq_dec i bad) as [->|Hne].
  - rewrite isLastVarFromSensor_end. reflexivity.
  - destruct (isLastVarFromSensor arr i) as [[|]|];
      [apply IH; lia | apply IH; lia | reflexivity].
Qed.

Lemma csv_loop_past_end (w : World) :
  forall (n i : nat) (csvString : string),
    (i <= bad < i + n)%nat -> csv_loop arr w n i csvString = None.
Proof.
  induction n as [|n IH]; intros i csv Hi; [lia|].
  cbn [csv_loop].
  destruct (Nat.eq_dec i bad) as [->|Hne].
  - rewrite variable_at_end. reflexivity.
  - destruct (variable_at arr i); [apply IH; lia | reflexivity].
Qed.

End PastTheEnd.

(** X10. When the stored count exceeds the length of the list (as after
    [init] with a count larger than the list, or with a negative count,
    which wraps to a positive one), every operation reads past the end of
    the list: none returns. *)
Theorem operations_beyond_bounds (arr : VariableArray) :
  (List.length (_variableList arr) < count arr)%nat ->
  getSensorCount arr = None
  /\ (forall w, generateSensorDataCSV arr w = None)
  /\ (forall st, setupSensors arr st = Undefined)
  /\ (forall st, sensorsSleep arr st = Undefined)
  /\ (forall st, sensorsWake arr st = Undefined)
  /\ (forall st, updateAllSensors arr st = Undefined).
Proof.
  intros Hshort.
  set (bad := List.length (_variableList arr)).
  assert (Hrange : (0 <= bad < 0 + count arr)%nat) by (unfold bad; lia).
  pose proof (variable_at_end arr) as Hend.
  pose proof (isLastVarFromSensor_end arr) as Hlast.
  fold bad in Hend, Hlast.
  split; [|split; [|split; [|split; [|split]]]].
  - apply count_sensors_past_end. exact Hrange.
  - intros w. apply csv_loop_past_end. exact Hrange.
  - intros st. unfold setupSensors. cbv zeta. unfold bind at 1.
    pose proof (for_loop_no_fuel _ (setup_pass_body arr)
                  (setup_pass_body_no_fuel arr) (count arr) 0%nat
                  (true, false, 0%nat) st) as Hnf.
    destruct (for_loop (count arr) 0 (setup_pass_body arr) _ st)
      as [[[success ss] tries] s| |]; [|reflexivity|contradiction].
    unfold bind.
    rewrite (for_loop_undefined _ (attach_pass_body arr) bad
               (attach_pass_body_no_fuel arr)); [reflexivity| |exact Hrange].
    intros a s'. unfold attach_pass_body, bind, lift.
    rewrite Hend. reflexivity.
  - intros st. unfold sensorsSleep. cbv zeta.
    apply (for_loop_undefined _ _ bad (canonical_and_body_no_fuel arr OpSleep));
      [|exact Hrange].
    intros a s. unfold canonical_and_body, bind, lift.
    rewrite Hlast. reflexivity.
  - intros st. unfold sensorsWake. cbv zeta.
    apply (for_loop_undefined _ _ bad (canonical_and_body_no_fuel arr OpWake));
      [|exact Hrange].
    intros a s. unfold canonical_and_body, bind, lift.
    rewrite Hlast. reflexivity.
  - intros st. unfold updateAllSensors. cbv zeta. unfold bind.
    rewrite (for_loop_undefined _ (update_body arr) bad
               (update_body_no_fuel arr)); [reflexivity| |exact Hrange].
    intros a s. unfold update_body, bind, lift.
    rewrite Hlast. reflexivity.
Qed.

(* --------------------------------------------------------------------- *)
(** ** One outcome of the setup pass per handle *)

Lemma attempts_success_filter (s : Sensor) :
  forall (k : nat) (w : World) (d : bool),
    d = false \/ (0 < k)%nat ->
    filter (fun ok : bool => ok) (fst (attempts k s w))
    = if last (fst (attempts k s w)) d then [true] else [].
Proof.
  induction k as [|k IH]; intros w d Hd.
  - destruct Hd as [-> | Hd]; [reflexivity | lia].
  - rewrite attempts_succ.
    destruct (fst (Sensor_call OpSetup s w)); cbn [fst]; [reflexivity|].
    rewrite last_cons. cbn [filter].
    apply IH. left. reflexivity.
Qed.

Lemma setup_outcomes_app (l1 l2 : list Event) :
  setup_outcomes (l1 ++ l2) = setup_outcomes l1 ++ setup_outcomes l2.
Proof. apply filter_app. Qed.

Lemma setup_outcomes_attempts (s : Sensor) (rs : list bool) :
  setup_outcomes (map (EvSensor OpSetup s) rs)
  = map (EvSensor OpSetup s) (filter (fun ok : bool => ok) rs).
Proof.
  induction rs as [|r rs IH]; [reflexivity|].
  unfold setup_outcomes in *. cbn [map filter is_setup_outcome].
  destruct r; cbn [map]; rewrite IH; reflexivity.
Qed.

Lemma setup_outcomes_attach (vs : list Var) (w : World) :
  setup_outcomes (fst (attach_all vs w)) = [].
Proof.
  destruct (attach_all_trace vs w) as (_ & H & _). cbv zeta in H.
  rewrite H. unfold setup_outcomes. clear H.
  induction (attach_calls (fst (attach_all vs w))) as [|p l IH];
    [reflexivity | exact IH].
Qed.

(** The first pass of [setupSensors] gives every handle behind [pre] one
    outcome, in order.  [setupTries] is at most 5 and, once it is 5,
    [sensorSuccess] is false. *)
Lemma setup_pass_outcomes (arr : VariableArray) :
  forall (suf pre : list Var) (success sensorSuccess : bool)
         (setupTries : nat) (st : State),
    _variableList arr = pre ++ suf ->
    (setupTries <= 5)%nat ->
    (setupTries = 5%nat -> sensorSuccess = false) ->
    exists (success' ok' : bool) (tries' : nat) (evs : list Event) (w' : World),
      for_loop (List.length suf) (List.length pre) (setup_pass_body arr)
               (success, sensorSuccess, setupTries) st
      = Ok (success', ok', tries') (mkState w' (trace st ++ evs))
      /\ Forall2 outcome_of (setup_outcomes evs) suf
      /\ attach_calls evs = [].
Proof.
  induction suf as [|v suf IH]; intros pre success ss tries st Hl Hle Hinv.
  - exists success, ss, tries, [], (world st).
    cbn. rewrite app_nil_r, state_eta.
    split; [reflexivity|]. split; [constructor | reflexivity].
  - cbn [List.length for_loop]. unfold bind at 1.
    pose proof (variable_at_middle arr pre suf v Hl) as Hv.
    rewrite (setup_pass_body_run arr _ v success ss tries st Hv). cbv zeta.
    destruct (attempts_facts (parentSensor v) (5 - tries) (world st) ss)
      as (F1 & _ & _ & F4 & _).
    assert (Hd : ss = false \/ (0 < 5 - tries)%nat).
    { destruct (Nat.eq_dec tries 5) as [E|E]; [left; auto | right; lia]. }
    pose proof (attempts_success_filter (parentSensor v) (5 - tries)
                  (world st) ss Hd) as Hfilter.
    set (r := attempts (5 - tries) (parentSensor v) (world st)) in *.
    set (ok := last (fst r) ss) in *.
    set (report := if ok then [] else [EvSetupFailed v]).
    set (tries1 := (tries + List.length (filter negb (fst r)))%nat).
    set (st1 := mkState (snd r) _).
    assert (Hle1 : (tries1 <= 5)%nat) by (subst tries1; lia).
    assert (Hinv1 : tries1 = 5%nat -> ok = false).
    { intros E. apply F4; [subst tries1; lia | exact Hd]. }
    destruct (IH (pre ++ [v]) (success && ok) ok tries1 st1)
      as (success' & ok' & tries' & evs & w' & Hrun & Hout & Hatt);
      [rewrite Hl; apply snoc_middle | exact Hle1 | exact Hinv1 |].
    rewrite length_snoc in Hrun.
    exists success', ok', tries',
      (map (EvSensor OpSetup (parentSensor v)) (fst r) ++ report ++ evs), w'.
    split; [|split].
    + rewrite Hrun. subst st1. cbn [trace].
      rewrite <- !app_assoc. reflexivity.
    + rewrite !setup_outcomes_app, setup_outcomes_attempts, Hfilter.
      subst report. destruct ok; cbn [map app setup_outcomes filter
                                         is_setup_outcome].
      * constructor; [left; reflexivity | exact Hout].
      * constructor; [right; reflexivity | exact Hout].
    + rewrite !attach_calls_app, attach_calls_attempts, Hatt.
      subst report. destruct ok; reflexivity.
Qed.

(** A whole run of [setupSensors], handle by handle. *)
Lemma setupSensors_outcomes_run (arr : VariableArray) (st : State) :
  well_formed arr ->
  exists (b : bool) (st' : State) (evs : list Event),
    setupSensors arr st = Ok b st'
    /\ trace st' = trace st ++ evs
    /\ Forall2 outcome_of (setup_outcomes evs) (_variableList arr)
    /\ map fst (attach_calls evs) = _variableList arr.
Proof.
  intros Hwf. pose proof (count_well_formed arr Hwf) as Hc.
  destruct (setup_pass_outcomes arr (_variableList arr) [] true false 0%nat
              st eq_refl)
    as (success' & ok' & tries' & evs & w1 & Hrun & Hout & Hatt);
    [lia | reflexivity |].
  cbn [List.length] in Hrun.
  pose proof (attach_pass_loop arr (_variableList arr) [] success'
                (mkState w1 (trace st ++ evs)) eq_refl) as Hattach.
  cbn [List.length] in Hattach. cbv zeta in Hattach.
  cbn [world trace] in Hattach.
  destruct (attach_all_trace (_variableList arr) w1) as (T1 & _).
  cbv zeta in T1.
  eexists _, _, (evs ++ fst (attach_all (_variableList arr) w1)). split.
  - unfold setupSensors. cbv zeta. unfold bind at 1.
    rewrite Hc, Hrun. unfold bind at 1. rewrite Hattach. unfold ret.
    reflexivity.
  - cbn [trace]. rewrite <- app_assoc.
    split; [reflexivity|].
    rewrite setup_outcomes_app, setup_outcomes_attach, app_nil_r,
      attach_calls_app, Hatt.
    split; [exact Hout | exact T1].
Qed.

(** X6. On a well-formed array, a run of [setupSensors] makes at most five
    failing setup calls in all.  Its succeeding setup calls and its
    failure reports, taken in order, match the handles one to one: every
    handle has either one succeeding setup call on its parent sensor or
    its failure report, never both and never two, so there is at most one
    succeeding setup call per handle.  A handle is reported as failed
    exactly in the runs where the fifth failure has occurred; and besides
    setup calls, reports and attach steps the run does nothing: no sensor
    is put to sleep, woken or updated. *)
Theorem setupSensors_call_budget (arr : VariableArray) (st : State) :
  well_formed arr ->
  exists (b : bool) (st' : State) (evs : list Event),
    setupSensors arr st = Ok b st'
    /\ trace st' = trace st ++ evs
    /\ (List.length (failed_setups evs) <= 5)%nat
    /\ Forall2 outcome_of (setup_outcomes evs) (_variableList arr)
    /\ (List.length (successful_setups evs)
        <= List.length (_variableList arr))%nat
    /\ (failure_reports evs <> [] <-> List.length (failed_setups evs) = 5%nat)
    /\ Forall is_setup_event evs.
Proof.
  intros Hwf.
  destruct (setupSensors_budget_run arr st Hwf)
    as (b & st' & evs & H1 & H2 & H3 & H4 & H5 & H6 & _).
  destruct (setupSensors_outcomes_run arr st Hwf)
    as (b2 & st2 & evs2 & G1 & G2 & G3 & _).
  assert (E : evs2 = evs).
  { rewrite H1 in G1. injection G1 as _ Est. subst st2.
    rewrite H2 in G2. apply app_inv_head in G2. symmetry. exact G2. }
  subst evs2.
  exists b, st', evs.
  split; [exact H1|]. split; [exact H2|]. split; [exact H3|].
  split; [exact G3|]. split; [exact H4|]. split; [exact H5 | exact H6].
Qed.

(* --------------------------------------------------------------------- *)
(** ** The count kept by init *)

(** C10. [init] keeps the count modulo 256: for every integer
    [variableCount], the stored count and [getVariableCount] are
    [variableCount mod 256], a value below 256, and every operation
    behaves on the initialised array as on the array of its first
    [variableCount mod 256] handles.  When the list holds that many
    handles, every loop visits exactly these handles, [kept]: the CSV has
    one field for each of them; the setup pass ends with one outcome (a
    succeeding setup call or a failure report) for each of them, and the
    attach pass attaches each of them, so [variableCount mod 256] attach
    steps; sleep, wake and update call the sensors of the canonical
    handles among them, one call for each distinct (name, location) pair
    among them; and the sensor count is the number of these pairs plus
    1.  The handles from index [variableCount mod 256] on are never
    visited. *)
Theorem init_count_modulo_256 (variableCount : Z) (variableList : list Var) :
  let arr := init variableCount variableList in
  let stored := variableCount mod 256 in
  let kept := firstn (Z.to_nat stored) variableList in
  let arr' := init stored kept in
  (_variableCount arr = stored
   /\ getVariableCount arr = stored
   /\ 0 <= stored < 256)
  /\ (getSensorCount arr = getSensorCount arr'
      /\ (forall st, setupSensors arr st = setupSensors arr' st)
      /\ (forall st, sensorsSleep arr st = sensorsSleep arr' st)
      /\ (forall st, sensorsWake arr st = sensorsWake arr' st)
      /\ (forall st, updateAllSensors arr st = updateAllSensors arr' st)
      /\ (forall w, generateSensorDataCSV arr w = generateSensorDataCSV arr' w))
  /\ ((Z.to_nat stored <= List.length variableList)%nat ->
      well_formed arr'
      /\ Z.of_nat (List.length kept) = stored
      /\ getSensorCount arr
         = Some (Z.of_nat (List.length (distinct_sensors kept)) + 1)
      /\ (forall w,
             generateSensorDataCSV arr w
             = Some (String.concat ", "
                       (map (fun v => getValueString v w) kept)))
      /\ (forall st, exists (b : bool) (st' : State) (evs : list Event),
             setupSensors arr st = Ok b st'
             /\ trace st' = trace st ++ evs
             /\ Forall2 outcome_of (setup_outcomes evs) kept
             /\ map fst (attach_calls evs) = kept
             /\ Z.of_nat (List.length (attach_calls evs)) = stored)
      /\ (forall st,
             let r := replay OpSleep (map parentSensor (canonical kept))
                             (world st) in
             sensorsSleep arr st
             = Ok (forallb ev_ok (fst r))
                  (mkState (snd r) (trace st ++ fst r))
             /\ called_keys (fst r) = distinct_sensors kept)
      /\ (forall st,
             let r := replay OpWake (map parentSensor (canonical kept))
                             (world st) in
             sensorsWake arr st
             = Ok (forallb ev_ok (fst r))
                  (mkState (snd r) (trace st ++ fst r))
             /\ called_keys (fst r) = distinct_sensors kept)
      /\ (forall st,
             let r := replay OpUpdate (map parentSensor (canonical kept))
                             (world st) in
             updateAllSensors arr st
             = Ok (last (map ev_ok (fst r)) true)
                  (mkState (snd r) (trace st ++ fst r))
             /\ called_keys (fst r) = distinct_sensors kept)).
Proof.
  cbv zeta.
  pose proof (to_uint8_range variableCount) as Hr. unfold to_uint8 in Hr.
  set (stored := variableCount mod 256) in *.
  set (kept := firstn (Z.to_nat stored) variableList).
  assert (Hag : agree (init variableCount variableList) (init stored kept)).
  { split.
    - unfold count, init. cbn [_variableCount].
      unfold to_uint8. fold stored. rewrite Z.mod_small by exact Hr.
      reflexivity.
    - intros i Hi. unfold count, init in Hi. cbn [_variableCount] in Hi.
      unfold to_uint8 in Hi. fold stored in Hi.
      unfold variable_at, init. cbn [_variableList]. subst kept.
      rewrite nth_error_firstn.
      destruct (Nat.ltb_spec i (Z.to_nat stored)); [reflexivity | lia]. }
  destruct (agree_operations _ _ Hag) as (E1 & E2 & E3 & E4 & E5 & E6).
  split; [|split].
  - unfold init, getVariableCount, to_uint8. cbn [_variableCount].
    fold stored. repeat split; lia.
  - repeat split; assumption.
  - intros Hlen.
    assert (Hk : List.length kept = Z.to_nat stored)
      by (subst kept; rewrite length_firstn; lia).
    assert (Hwf : well_formed (init stored kept)).
    { unfold well_formed, init, to_uint8. cbn [_variableCount _variableList].
      rewrite Z.mod_small by exact Hr. split; lia. }
    pose proof (count_well_formed _ Hwf) as Hc.
    set (arr' := init stored kept) in *.
    assert (Hl : _variableList arr' = [] ++ kept) by reflexivity.
    change (_variableList arr') with kept in Hc.
    split; [exact Hwf|]. split; [lia|].
    split; [|split; [|split; [|split; [|split]]]].
    + rewrite E1. unfold getSensorCount. cbv zeta. rewrite Hc.
      pose proof (count_sensors_suffix arr' kept [] 1 Hl Hc) as H.
      cbn [List.length] in H. rewrite H.
      f_equal. rewrite <- canonical_distinct, length_map. lia.
    + intros w. rewrite E6. unfold generateSensorDataCSV. rewrite Hc.
      pose proof (csv_loop_suffix arr' w kept [] EmptyString Hl Hc) as H.
      cbn [List.length] in H. exact H.
    + intros st. rewrite E2.
      destruct (setupSensors_outcomes_run arr' st Hwf)
        as (b & st' & evs & H1 & H2 & H3 & H4).
      change (_variableList arr') with kept in H3, H4.
      exists b, st', evs. repeat split; try assumption.
      rewrite <- (length_map fst), H4. lia.
    + intros st. cbv zeta. rewrite E3. unfold sensorsSleep. cbv zeta.
      rewrite Hc.
      pose proof (canonical_and_loop arr' OpSleep kept [] true st Hl Hc)
        as H.
      cbn [List.length andb] in H. cbv zeta in H.
      split; [exact H|]. rewrite replay_called_keys. apply canonical_distinct.
    + intros st. cbv zeta. rewrite E4. unfold sensorsWake. cbv zeta.
      rewrite Hc.
      pose proof (canonical_and_loop arr' OpWake kept [] true st Hl Hc)
        as H.
      cbn [List.length andb] in H. cbv zeta in H.
      split; [exact H|]. rewrite replay_called_keys. apply canonical_distinct.
    + intros st. cbv zeta. rewrite E5. unfold updateAllSensors. cbv zeta.
      unfold bind. rewrite Hc.
      pose proof (update_loop arr' kept [] true st Hl Hc) as H.
      cbn [List.length] in H. cbv zeta in H. rewrite H.
      unfold ret. cbn [andb].
      split; [reflexivity|].
      rewrite replay_called_keys. apply canonical_distinct.
Qed.

End MoreProofs.

(* ===================================================================== *)
(** * The further properties at concrete arrays *)
(* ===================================================================== *)

Section MoreInstances.

Import Bench BenchPrint.

(** One handle whose sensor has been called: one line, after what the
    stream held. *)
Lemma printSensorData_lines_witness :
  well_formed only_board
  /\ printSensorData only_board [2%nat] ">"
     = Some (">Board attached at A0 has status ready and reports var_v3 is v3 unit"
             ++ crlf)%string.
Proof.
  split; [split; [reflexivity | vm_compute; lia]|].
  destruct (printSensorData_lines only_board [2%nat] ">") as (H & _).
  - split; [reflexivity | vm_compute; lia].
  - exact H.
Defined.

(** Three variables on two sensors: the count lies between 2 and 4. *)
Lemma getSensorCount_bounds_witness :
  well_formed three
  /\ exists n : Z, getSensorCount three = Some n /\ 2 <= n /\ n <= 3 + 1.
Proof.
  split; [split; [reflexivity | vm_compute; lia]|].
  destruct (getSensorCount_bounds three) as (n & H1 & H2 & H3 & _).
  - split; [reflexivity | vm_compute; lia].
  - exists n. split; [exact H1|]. split.
    + apply H3. discriminate.
    + exact (proj2 H2).
Defined.

(** The sensor of the first two variables is put to sleep once. *)
Lemma sensorsSleep_sensorsWake_once_per_pair_witness :
  well_formed three
  /\ exists (b : bool) (st' : State) (evs : list Event),
      sensorsSleep three start = Ok b st'
      /\ trace st' = evs
      /\ count_occ key_eq_dec (called_keys evs) (sensor_key v1) = 1%nat
      /\ count_occ key_eq_dec (called_keys evs) (sensor_key v2) = 1%nat.
Proof.
  split; [split; [reflexivity | vm_compute; lia]|].
  destruct (sensorsSleep_sensorsWake_once_per_pair three start)
    as ((b & st' & evs & H1 & H2 & _ & H4) & _).
  - split; [reflexivity | vm_compute; lia].
  - exists b, st', evs. split; [exact H1|]. split; [exact H2|]. split.
    + apply H4. left. reflexivity.
    + apply H4. right. left. reflexivity.
Defined.

Lemma updateAllSensors_once_per_pair_witness :
  well_formed flaky_then_board
  /\ exists (b : bool) (st' : State) (evs : list Event),
      updateAllSensors flaky_then_board start = Ok b st'
      /\ trace st' = evs
      /\ count_occ key_eq_dec (called_keys evs) (sensor_key vflaky) = 1%nat.
Proof.
  split; [split; [reflexivity | vm_compute; lia]|].
  destruct (updateAllSensors_once_per_pair flaky_then_board start)
    as (b & st' & evs & H1 & H2 & _ & H4).
  - split; [reflexivity | vm_compute; lia].
  - exists b, st', evs. split; [exact H1|]. split; [exact H2|].
    apply H4. left. reflexivity.
Defined.

(** The status is that of the board, the sensor of the last variable. *)
Lemma updateAllSensors_last_variable_witness :
  well_formed flaky_then_board
  /\ _variableList flaky_then_board = [vflaky] ++ [v3]
  /\ exists (ok : bool) (st' : State) (evs : list Event),
      updateAllSensors flaky_then_board start = Ok ok st'
      /\ trace st' = evs ++ [EvSensor OpUpdate board ok].
Proof.
  split; [split; [reflexivity | vm_compute; lia]|].
  split; [reflexivity|].
  destruct (updateAllSensors_last_variable flaky_then_board start [vflaky] v3)
    as (ok & st' & evs & H1 & H2 & _).
  - split; [reflexivity | vm_compute; lia].
  - reflexivity.
  - exists ok, st', evs. split; [exact H1 | exact H2].
Defined.

(** A sensor that answers at its fifth attempt, alone in the array. *)
Lemma setupSensors_true_means_all_set_up_witness :
  well_formed only_slow4
  /\ exists (st' : State),
      setupSensors only_slow4 start = Ok true st'
      /\ In (slow4, true) (setup_calls (trace st'))
      /\ In (vslow4, true) (attach_calls (trace st')).
Proof.
  split; [split; [reflexivity | vm_compute; lia]|].
  destruct (setupSensors_true_means_all_set_up only_slow4 start)
    as (b & st' & evs & H1 & H2 & H3).
  - split; [reflexivity | vm_compute; lia].
  - assert (Eb : b = true).
    { vm_compute in H1. injection H1 as E _. symmetry. exact E. }
    subst b. exists st'. split; [exact H1|].
    cbn [trace start app] in H2. rewrite H2.
    apply (proj2 (H3 eq_refl) vslow4). left. reflexivity.
Defined.


(** 258 handles behind a count of 2. *)
Lemma operations_within_bounds_witness :
  (count wrapped <= List.length (_variableList wrapped))%nat
  /\ exists csv : string,
      generateSensorDataCSV wrapped [] = Some csv.
Proof.
  assert (H : (count wrapped
               <= List.length (_variableList wrapped))%nat)
    by (vm_compute; lia).
  split; [exact H|].
  destruct (operations_within_bounds wrapped H) as (_ & Hcsv & _).
  exact (Hcsv []).
Defined.

(** A count of -1 is stored as 255, beyond the three handles. *)
Lemma operations_beyond_bounds_witness :
  (List.length (_variableList minus_one)
   < count minus_one)%nat
  /\ getSensorCount minus_one = None
  /\ setupSensors minus_one start = Undefined.
Proof.
  assert (H : (List.length (_variableList minus_one)
               < count minus_one)%nat)
    by (vm_compute; lia).
  split; [exact H|].
  destruct (operations_beyond_bounds minus_one H)
    as (H1 & _ & H3 & _).
  split; [exact H1 | exact (H3 start)].
Defined.

(** A dead sensor uses up the five attempts; both handles end with a
    failure report. *)
Lemma setupSensors_call_budget_witness :
  well_formed dead_then_board
  /\ exists (b : bool) (st' : State) (evs : list Event),
      setupSensors dead_then_board start = Ok b st'
      /\ trace st' = evs
      /\ (List.length (failed_setups evs) <= 5)%nat
      /\ Forall2 outcome_of (setup_outcomes evs) [vdead; v3]
      /\ (List.length (successful_setups evs) <= 2)%nat.
Proof.
  split; [split; [reflexivity | vm_compute; lia]|].
  destruct (setupSensors_call_budget dead_then_board start)
    as (b & st' & evs & H1 & H2 & H3 & H4 & H5 & _).
  - split; [reflexivity | vm_compute; lia].
  - exists b, st', evs. repeat split; assumption.
Defined.

(** 258 declared variables: the count wraps to 2, and every loop visits
    the first two handles, which share one sensor. *)
Lemma init_count_modulo_256_witness :
  (Z.to_nat (258 mod 256) <= List.length crowd)%nat
  /\ getVariableCount (init (P := platform) 258 crowd) = 2
  /\ getSensorCount (init (P := platform) 258 crowd) = Some 2
  /\ generateSensorDataCSV (init (P := platform) 258 crowd) []
     = Some "v1, v2"%string
  /\ sensorsSleep (init (P := platform) 258 crowd) start
     = Ok true (mkState [1%nat] [EvSensor OpSleep probe true])
  /\ exists (b : bool) (st' : State) (evs : list Event),
      setupSensors (init (P := platform) 258 crowd) start = Ok b st'
      /\ trace st' = evs
      /\ Forall2 outcome_of (setup_outcomes evs) [v1; v2]
      /\ map fst (attach_calls evs) = [v1; v2].
Proof.
  assert (Hlen : (Z.to_nat (258 mod 256) <= List.length crowd)%nat)
    by (vm_compute; lia).
  destruct (init_count_modulo_256 (P := platform) 258 crowd)
    as ((_ & Hcount & _) & _ & H).
  destruct (H Hlen) as (_ & _ & Hsc & Hcsv & Hsetup & Hsleep & _).
  split; [exact Hlen|]. split; [exact Hcount|]. split; [exact Hsc|].
  split; [exact (Hcsv [])|]. split; [exact (proj1 (Hsleep start))|].
  destruct (Hsetup start) as (b & st' & evs & H1 & H2 & H3 & H4 & _).
  exists b, st', evs. repeat split; assumption.
Defined.

End MoreInstances.
